(** * Shallow embedding of kajappka-rating-service

    Models the rating entity (part_003: [Rating], [valid]), the MongoDB
    backed repository (part_003: [MongoRatingRepository]), the user
    authenticator (part_003: [AuthenticateUser]), the middlewares
    (part_000) and the [App] handlers and router wiring (app.go).

    The MongoDB collection is an explicit state: the list of stored
    documents in natural order, a flag telling whether the server is
    reachable, and a trace of the collection operations issued.  Go
    errors are values ([result]); a Go panic (failed type assertion)
    aborts the computation ([None] in the monad [M]). *)

From Stdlib Require Import String Ascii ZArith QArith List Bool Lia.
From Stdlib Require Import Sorting.Sorted Sorting.Permutation.
Import ListNotations.

Set Warnings "-register-all".

Open Scope string_scope.
Open Scope Z_scope.

(* ------------------------------------------------------------------ *)
(** ** Data model (part_003) *)

(** [User]: the identity returned by the verifier. *)
Record User := mkUser {
  ID : string;
  Email : string;
  Nickname : string;
  ProfilePhoto : string
}.

Definition zero_user : User := mkUser "" "" "" "".

(** [Rating]: the Go struct.  The Go field [Rating] (type [int]) is named
    [rating] here, since the record type already owns the name. *)
Record Rating := mkRating {
  UserID : string;
  GameID : string;
  rating : Z
}.

Definition zero_rating : Rating := mkRating "" "" 0.

(** [func (r Rating) valid() bool { return r.Rating >= 1 && r.Rating <= 5 }] *)
Definition valid (r : Rating) : bool :=
  (1 <=? rating r) && (rating r <=? 5).

(** Go [int] on a 64-bit platform. *)
Definition int_min : Z := - 2 ^ 63.
Definition int_max : Z := 2 ^ 63 - 1.

(* ------------------------------------------------------------------ *)
(** ** JSON values and [encoding/json] decoding into structs *)

(** A JSON number literal is either an integer literal ([JInt]) or a
    literal with a fraction or an exponent ([JFrac]); Go decodes only the
    former into an [int] field ([strconv.ParseInt] on the literal). *)
Inductive json :=
| JNull
| JBool (b : bool)
| JInt (z : Z)
| JFrac (q : Q)
| JStr (s : string)
| JArr (l : list json)
| JObj (fields : list (string * json)).

(** A request or verifier body: a syntax error (or an empty body, io.EOF)
    or one well-formed JSON value. *)
Inductive body :=
| BodyMalformed
| BodyJson (j : json).

(** Outcome of decoding one JSON value into one struct field. *)
Inductive field_dec (A : Type) :=
| FSet (a : A)
| FKeep
| FTypeErr.
Arguments FSet {A} a.
Arguments FKeep {A}.
Arguments FTypeErr {A}.

Definition decode_int (j : json) : field_dec Z :=
  match j with
  | JNull => FKeep
  | JInt z => if (int_min <=? z) && (z <=? int_max) then FSet z else FTypeErr
  | _ => FTypeErr
  end.

Definition decode_string (j : json) : field_dec string :=
  match j with
  | JNull => FKeep
  | JStr s => FSet s
  | _ => FTypeErr
  end.

(** Object keys are matched to field tags by [foldName] (encoding/json,
    fold.go) when no exact match exists: ASCII letters are upper-cased,
    and every other rune is replaced by the smallest rune of its simple
    case-folding orbit.  The only non-ASCII runes whose orbit contains
    an ASCII character are U+212A (KELVIN SIGN, bytes E2 84 AA, orbit
    k K) and U+017F (LATIN SMALL LETTER LONG S, bytes C5 BF, orbit s S);
    all other runes fold to non-ASCII runes, which never occur in the
    ASCII field tags, so they are kept as they are.  The lead bytes E2
    and C5 are never continuation bytes, so wherever these byte
    sequences occur the UTF-8 decoder reads them as those runes. *)
Definition upper_ascii (c : ascii) : ascii :=
  let n := nat_of_ascii c in
  if (Nat.leb 97 n && Nat.leb n 122)%bool then ascii_of_nat (n - 32) else c.

Fixpoint fold_name (s : string) : string :=
  match s with
  | EmptyString => EmptyString
  | String c1 s1 =>
      match s1 with
      | String c2 s2 =>
          if Ascii.eqb c1 (ascii_of_nat 197) && Ascii.eqb c2 (ascii_of_nat 191)
          then String "S"%char (fold_name s2)
          else
            match s2 with
            | String c3 s3 =>
                if Ascii.eqb c1 (ascii_of_nat 226) && Ascii.eqb c2 (ascii_of_nat 132)
                   && Ascii.eqb c3 (ascii_of_nat 170)
                then String "K"%char (fold_name s3)
                else String (upper_ascii c1) (fold_name s1)
            | EmptyString => String (upper_ascii c1) (fold_name s1)
            end
      | EmptyString => String (upper_ascii c1) EmptyString
      end
  end.

Definition key_is (k tag : string) : bool := String.eqb (fold_name k) (fold_name tag).

(** One key of a JSON object decoded into a [Rating]: the tags are
    [game_id] and [rating]; [UserID] is tagged [json:"-"].  A type error
    keeps the field and is reported at the end (Go's UnmarshalTypeError). *)
Definition decode_rating_field (acc : Rating * bool) (kv : string * json)
  : Rating * bool :=
  let '(r, err) := acc in
  let '(k, v) := kv in
  if key_is k "game_id" then
    match decode_string v with
    | FSet s => (mkRating (UserID r) s (rating r), err)
    | FKeep => (r, err)
    | FTypeErr => (r, true)
    end
  else if key_is k "rating" then
    match decode_int v with
    | FSet n => (mkRating (UserID r) (GameID r) n, err)
    | FKeep => (r, err)
    | FTypeErr => (r, true)
    end
  else (r, err).

(** [json.NewDecoder(b).Decode(&r)]: the decoded value and whether an
    error was returned. *)
Definition decode_rating (b : body) (r : Rating) : Rating * bool :=
  match b with
  | BodyMalformed => (r, true)
  | BodyJson JNull => (r, false)
  | BodyJson (JObj fs) => fold_left decode_rating_field fs (r, false)
  | BodyJson _ => (r, true)
  end.

Definition decode_user_field (acc : User * bool) (kv : string * json)
  : User * bool :=
  let '(u, err) := acc in
  let '(k, v) := kv in
  let upd (f : string -> User) :=
    match decode_string v with
    | FSet s => (f s, err)
    | FKeep => (u, err)
    | FTypeErr => (u, true)
    end in
  if key_is k "id" then upd (fun s => mkUser s (Email u) (Nickname u) (ProfilePhoto u))
  else if key_is k "email" then upd (fun s => mkUser (ID u) s (Nickname u) (ProfilePhoto u))
  else if key_is k "nickname" then upd (fun s => mkUser (ID u) (Email u) s (ProfilePhoto u))
  else if key_is k "profile_photo" then upd (fun s => mkUser (ID u) (Email u) (Nickname u) s)
  else (u, err).

Definition decode_user (b : body) (u : User) : User * bool :=
  match b with
  | BodyMalformed => (u, true)
  | BodyJson JNull => (u, false)
  | BodyJson (JObj fs) => fold_left decode_user_field fs (u, false)
  | BodyJson _ => (u, true)
  end.

(** JSON encoding of a [Rating]: [UserID] is omitted ([json:"-"]). *)
Definition encode_rating (r : Rating) : json :=
  JObj [("game_id", JStr (GameID r)); ("rating", JInt (rating r))].

(* ------------------------------------------------------------------ *)
(** ** The MongoDB collection and the state monad *)

Inductive db_op :=
| OpPing
| OpAggregate
| OpFindOne (game user : string)
| OpReplaceOne (r : Rating).

(** Documents are stored as the BSON encoding of [Rating]
    ([user_id], [game_id], [rating]) plus an [_id]; decoding a stored
    document back gives the same [Rating]. *)
Record db := mkDb {
  docs : list Rating;
  db_up : bool;
  ops : list db_op
}.

(** [Some a]: normal return; [None]: a Go panic. *)
Definition M (A : Type) : Type := db -> option A * db.

Definition ret {A} (a : A) : M A := fun s => (Some a, s).

Definition bind {A B} (m : M A) (k : A -> M B) : M B :=
  fun s => match m s with
           | (Some a, s') => k a s'
           | (None, s') => (None, s')
           end.

Definition panic {A} : M A := fun s => (None, s).

Notation "x <- m ;; k" := (bind m (fun x => k))
  (at level 61, m at next level, right associativity).
Notation "m ;; k" := (bind m (fun _ => k))
  (at level 61, right associativity).

Definition get_db : M db := fun s => (Some s, s).

Definition issue (o : db_op) : M unit :=
  fun s => (Some tt, mkDb (docs s) (db_up s) (o :: ops s)).

Definition set_docs (l : list Rating) : M unit :=
  fun s => (Some tt, mkDb l (db_up s) (ops s)).

(** Errors returned by the repository. *)
Inductive error :=
| ErrNoDocuments   (* mongo.ErrNoDocuments *)
| ErrStore         (* connection or server failure *)
| ErrTruncate      (* bson: float64 decoded into an int field *)
| ErrOverflow      (* bson: "%g overflows int64" *)
| ErrInvalid.      (* errors.New("Invalid rating update") *)

Inductive result (A : Type) :=
| Ok (a : A)
| Err (e : error).
Arguments Ok {A} a.
Arguments Err {A} e.

(** The filter [bson.M{"game_id": g, "user_id": u}]. *)
Definition matches (g u : string) (d : Rating) : bool :=
  String.eqb (GameID d) g && String.eqb (UserID d) u.

(** [collection.FindOne(ctx, filter).Decode(&rating)]. *)
Definition find_one (g u : string) : M (result Rating) :=
  issue (OpFindOne g u);;
  s <- get_db;;
  if db_up s then
    match find (matches g u) (docs s) with
    | Some d => ret (Ok d)
    | None => ret (Err ErrNoDocuments)
    end
  else ret (Err ErrStore).

(** [ReplaceOne] with [SetUpsert(true)]: the first document matching the
    filter is replaced; when none matches, the replacement is inserted. *)
Fixpoint replace_first (g u : string) (r : Rating) (l : list Rating)
  : option (list Rating) :=
  match l with
  | [] => None
  | d :: l' =>
      if matches g u d then Some (r :: l')
      else option_map (cons d) (replace_first g u r l')
  end.

Definition upsert (g u : string) (r : Rating) (l : list Rating) : list Rating :=
  match replace_first g u r l with
  | Some l' => l'
  | None => l ++ [r]
  end.

Definition replace_one (g u : string) (r : Rating) : M (result unit) :=
  issue (OpReplaceOne r);;
  s <- get_db;;
  if db_up s then (set_docs (upsert g u r (docs s));; ret (Ok tt))
  else ret (Err ErrStore).

(** Binary64 arithmetic as the server does it.  [round_ne n d] is the
    integer nearest to [n / d] ([d > 0]), ties to even. *)
Definition round_ne (n d : Z) : Z :=
  let m := n / d in
  let r := n mod d in
  if 2 * r <? d then m
  else if d <? 2 * r then m + 1
  else if Z.even m then m else m + 1.

(** [binade a d] is [floor (log2 (a / d))] for [a, d > 0]. *)
Definition binade (a d : Z) : Z :=
  if d <=? a then Z.log2 (a / d) else - Z.log2_up ((d + a - 1) / a).

(** [m * 2 ^ e]. *)
Definition scale (m e : Z) : Q :=
  if 0 <=? e then inject_Z (m * 2 ^ e) else m # Z.to_pos (2 ^ (- e)).

(** The double nearest to [x] (round to nearest, ties to even, 53-bit
    significand): a value of binade [k] is rounded to a multiple of
    [2 ^ (k - 52)].  The exponent range is not bounded: the averages of
    64-bit ratings lie far inside the normal range of binary64.  Doubles
    are kept as reduced fractions. *)
Definition to_double (x : Q) : Q :=
  let n := Qnum x in
  let d := Zpos (Qden x) in
  if Z.eqb n 0 then 0 else
  let u := binade (Z.abs n) d - 52 in
  Qred (if 0 <=? u then scale (round_ne n (d * 2 ^ u)) u
        else scale (round_ne (n * 2 ^ (- u)) d) u).

(** [$avg] of [count] integer ratings of exact total [sum]: the server
    accumulates the 64-bit integers exactly (double-double summation),
    and returns [total.getDouble() / double(count)]: the total rounded
    to a double, divided by the count as a double, the quotient rounded
    again. *)
Definition avg_double (sum : Z) (count : positive) : Q :=
  to_double (Qdiv (to_double (inject_Z sum)) (to_double (inject_Z (Zpos count)))).

(** The aggregation pipeline of [GetAvgRatings]:
    [$group] by [game_id] with [$avg] of [rating], then [$sort] by
    [rating] descending.  Each group keeps the running sum and count
    and yields their [$avg].  Groups appear in order of first
    occurrence; the order among equal averages is left open by MongoDB
    and fixed here by the sort. *)
Fixpoint group_add (d : Rating) (gs : list (string * Z * positive))
  : list (string * Z * positive) :=
  match gs with
  | [] => [(GameID d, rating d, 1%positive)]
  | (g, sum, cnt) :: gs' =>
      if String.eqb g (GameID d) then (g, sum + rating d, Pos.succ cnt) :: gs'
      else (g, sum, cnt) :: group_add d gs'
  end.

Definition group_avg (l : list Rating) : list (string * Q) :=
  map (fun '(g, sum, cnt) => (g, avg_double sum cnt))
      (fold_left (fun gs d => group_add d gs) l []).

Fixpoint insert_desc (x : string * Q) (l : list (string * Q)) : list (string * Q) :=
  match l with
  | [] => [x]
  | y :: l' => if Qle_bool (snd y) (snd x) then x :: l else y :: insert_desc x l'
  end.

Definition sort_desc (l : list (string * Q)) : list (string * Q) :=
  fold_right insert_desc [] l.

(** One aggregated document [{_id, game_id, rating: <double>}] decoded by
    [cur.All] into a [Rating] (bsoncodec [IntDecodeValue]): a double
    that is not integral is refused, truncation being off by default
    ([math.Floor(f64) != f64]); one above [float64(math.MaxInt64)],
    that is above [2 ^ 63], overflows; otherwise the field gets
    [int64(f64)].  That conversion is out of range for [f64 = 2 ^ 63],
    where Go leaves the result to the implementation: the amd64
    instruction yields [math.MinInt64]. *)
Definition decode_avg_doc (gq : string * Q) : result Rating :=
  let '(g, q) := gq in
  if negb (Z.eqb (Z.modulo (Qnum q) (Zpos (Qden q))) 0) then Err ErrTruncate
  else
    let i := Z.div (Qnum q) (Zpos (Qden q)) in
    if int_max + 1 <? i then Err ErrOverflow
    else if Z.eqb i (int_max + 1) then Ok (mkRating "" g int_min)
    else Ok (mkRating "" g i).

(** [cur.All(ctx, &ratings)]: decodes every result, stopping at the first
    error. *)
Fixpoint cursor_all (l : list (string * Q)) : result (list Rating) :=
  match l with
  | [] => Ok []
  | x :: l' =>
      match decode_avg_doc x with
      | Err e => Err e
      | Ok r => match cursor_all l' with
                | Err e => Err e
                | Ok rs => Ok (r :: rs)
                end
      end
  end.

(* ------------------------------------------------------------------ *)
(** ** [MongoRatingRepository] (part_003) *)

(** [Initialize]: connect and ping the primary. *)
Definition repo_Initialize : M (result unit) :=
  issue OpPing;;
  s <- get_db;;
  if db_up s then ret (Ok tt) else ret (Err ErrStore).

Definition GetAvgRatings : M (result (list Rating)) :=
  issue OpAggregate;;
  s <- get_db;;
  if db_up s then ret (cursor_all (sort_desc (group_avg (docs s))))
  else ret (Err ErrStore).

Definition GetRating (gameID userID : string) : M (result Rating) :=
  res <- find_one gameID userID;;
  match res with
  | Err ErrNoDocuments => ret (Ok (mkRating "" gameID 0))
  | Err e => ret (Err e)
  | Ok r => ret (Ok r)
  end.

Definition PutRating (r : Rating) : M (result unit) :=
  if negb (valid r) then ret (Err ErrInvalid)
  else replace_one (GameID r) (UserID r) r.

(* ------------------------------------------------------------------ *)
(** ** [net/http]: the response writer *)

Inductive chunk :=
| CJson (j : json)       (* json.NewEncoder(w).Encode(v): v and a newline *)
| CText (s : string).    (* raw bytes *)

(** [w_header] is the mutable [w.Header()] map (a list of key/value
    pairs, keys in canonical form); once the status is written the header
    sent with it is frozen in [w_sent]. *)
Record writer := mkWriter {
  w_header : list (string * string);
  w_status : option Z;
  w_sent : list (string * string);
  w_body : list chunk
}.

Definition empty_writer : writer := mkWriter [] None [] [].

Definition header_del (k : string) (h : list (string * string)) :=
  filter (fun kv => negb (String.eqb (fst kv) k)) h.

Definition header_values (k : string) (h : list (string * string)) : list string :=
  map snd (filter (fun kv => String.eqb (fst kv) k) h).

(** [Header.Get]: the first value, or the empty string. *)
Definition header_get (k : string) (h : list (string * string)) : string :=
  match header_values k h with
  | v :: _ => v
  | [] => ""
  end.

Definition w_add (k v : string) (w : writer) : writer :=
  mkWriter (w_header w ++ [(k, v)]) (w_status w) (w_sent w) (w_body w).

Definition w_set (k v : string) (w : writer) : writer :=
  mkWriter (header_del k (w_header w) ++ [(k, v)]) (w_status w) (w_sent w) (w_body w).

Definition w_del (k : string) (w : writer) : writer :=
  mkWriter (header_del k (w_header w)) (w_status w) (w_sent w) (w_body w).

(** [w.WriteHeader(code)]: a second call is ignored. *)
Definition write_header (code : Z) (w : writer) : writer :=
  match w_status w with
  | Some _ => w
  | None => mkWriter (w_header w) (Some code) (w_header w) (w_body w)
  end.

(** [w.Write(b)]: writes the status 200 first if none was written. *)
Definition write (c : chunk) (w : writer) : writer :=
  let w' := write_header 200 w in
  mkWriter (w_header w') (w_status w') (w_sent w') (w_body w' ++ [c]).

Definition newline : string := String (ascii_of_nat 10) EmptyString.

(** [http.Error(w, msg, code)]. *)
Definition http_error (msg : string) (code : Z) (w : writer) : writer :=
  let w := w_del "Content-Length" w in
  let w := w_set "Content-Type" "text/plain; charset=utf-8" w in
  let w := w_set "X-Content-Type-Options" "nosniff" w in
  let w := write_header code w in
  write (CText (msg ++ newline)) w.

Record response := mkResponse {
  status : Z;
  headers : list (string * string);
  resp_body : list chunk
}.

(** What the client receives when the handler returns. *)
Definition finish (w : writer) : response :=
  match w_status w with
  | Some c => mkResponse c (w_sent w) (w_body w)
  | None => mkResponse 200 (w_header w) (w_body w)
  end.

(* ------------------------------------------------------------------ *)
(** ** Requests and request contexts *)

(** Context keys: the string keys used by this program, or the opaque
    typed keys of other packages (never equal to a string key). *)
Inductive ctx_key :=
| KString (s : string)
| KOpaque (n : nat).

Inductive ctx_value :=
| VUser (u : User)
| VOther (n : nat).

Definition ctx_key_eqb (a b : ctx_key) : bool :=
  match a, b with
  | KString s, KString t => String.eqb s t
  | KOpaque n, KOpaque m => Nat.eqb n m
  | _, _ => false
  end.

(** [context.WithValue] puts the newest binding in front; [Value] returns
    the innermost binding of the key. *)
Fixpoint ctx_lookup (k : ctx_key) (c : list (ctx_key * ctx_value)) : option ctx_value :=
  match c with
  | [] => None
  | (k', v) :: c' => if ctx_key_eqb k k' then Some v else ctx_lookup k c'
  end.

(** [req_vars] are the route variables [mux.Vars(r)] set by the router. *)
Record request := mkRequest {
  method : string;
  path : string;
  req_header : list (string * string);
  req_body : body;
  req_ctx : list (ctx_key * ctx_value);
  req_vars : list (string * string)
}.

Definition with_value (r : request) (k : ctx_key) (v : ctx_value) : request :=
  mkRequest (method r) (path r) (req_header r) (req_body r) ((k, v) :: req_ctx r) (req_vars r).

Definition with_vars (r : request) (vs : list (string * string)) : request :=
  mkRequest (method r) (path r) (req_header r) (req_body r) (req_ctx r) vs.

(** [params["id"]]: the zero value when absent. *)
Fixpoint var_lookup (k : string) (vs : list (string * string)) : string :=
  match vs with
  | [] => ""
  | (k', v) :: vs' => if String.eqb k k' then v else var_lookup k vs'
  end.

Definition Handler : Type := request -> writer -> M writer.

(* ------------------------------------------------------------------ *)
(** ** Router wiring (app.go, gorilla/mux) *)

(** Path templates ["/"] and ["/{id}"]; [{id}] matches [[^/]+]. *)
Inductive pattern := PRoot | PId.

Inductive handler_name := HgetRatings | HgetRating | HputRating.

Inductive middleware :=
| MLogRequests
| MAuthentication (verifierURI requestUserKey : string)
| MContentType.

Record Router := mkRouter {
  routes : list (string * pattern * handler_name);
  middlewares : list middleware
}.

Record App := mkApp {
  Host : string;
  Port : string;
  requestUserKey : string;
  router : option Router
}.

Fixpoint no_slash (s : string) : bool :=
  match s with
  | EmptyString => true
  | String c s' => negb (Ascii.eqb c "/"%char) && no_slash s'
  end.

Definition match_pattern (p : pattern) (pth : string) : option (list (string * string)) :=
  match p, pth with
  | PRoot, _ => if String.eqb pth "/" then Some [] else None
  | PId, String c id =>
      if Ascii.eqb c "/"%char && negb (String.eqb id "") && no_slash id
      then Some [("id", id)] else None
  | PId, EmptyString => None
  end.

(** [Router.Match]: the first route matching path and method wins; a
    route matching the path only yields 405, no route at all 404. *)
Inductive route_result :=
| RMatch (h : handler_name) (vs : list (string * string))
| RMethodMismatch
| RNotFound.

Fixpoint find_route (meth pth : string) (rs : list (string * pattern * handler_name))
  : option (handler_name * list (string * string)) :=
  match rs with
  | [] => None
  | (m, p, h) :: rs' =>
      match match_pattern p pth with
      | Some vs => if String.eqb m meth then Some (h, vs) else find_route meth pth rs'
      | None => find_route meth pth rs'
      end
  end.

Definition route (rt : Router) (r : request) : route_result :=
  match find_route (method r) (path r) (routes rt) with
  | Some (h, vs) => RMatch h vs
  | None =>
      if existsb (fun '(_, p, _) => match match_pattern p (path r) with
                                    | Some _ => true | None => false end) (routes rt)
      then RMethodMismatch else RNotFound
  end.

(** [strings.Split(s, "/")]. *)
Fixpoint split_slash (s : string) : list string :=
  match s with
  | EmptyString => [EmptyString]
  | String c s' =>
      let rest := split_slash s' in
      if Ascii.eqb c "/"%char then EmptyString :: rest
      else match rest with
           | seg :: segs => String c seg :: segs
           | [] => [String c EmptyString]
           end
  end.

(** The element loop of [path.Clean] on a rooted path, with the kept
    elements on a stack (newest first): empty and ["."] elements are
    dropped, [".."] removes the last kept element (none at the root). *)
Fixpoint clean_elems (stack segs : list string) : list string :=
  match segs with
  | [] => stack
  | seg :: segs' =>
      if String.eqb seg "" || String.eqb seg "." then clean_elems stack segs'
      else if String.eqb seg ".." then clean_elems (tl stack) segs'
      else clean_elems (seg :: stack) segs'
  end.

(** [path.Clean] of a path that starts with ["/"]. *)
Definition path_clean_rooted (p : string) : string :=
  String "/"%char (String.concat "/" (rev (clean_elems [] (split_slash p)))).

Fixpoint last_is_slash (s : string) : bool :=
  match s with
  | EmptyString => false
  | String c EmptyString => Ascii.eqb c "/"%char
  | String _ s' => last_is_slash s'
  end.

(** gorilla/mux [cleanPath]: the canonical form of a request path,
    keeping a trailing slash. *)
Definition clean_path (p : string) : string :=
  match p with
  | EmptyString => "/"
  | String c _ =>
      let p := if Ascii.eqb c "/"%char then p else String "/"%char p in
      let np := path_clean_rooted p in
      if last_is_slash p && negb (String.eqb np "/") then np ++ "/" else np
  end.

(** [url.String()] of the request URL whose path was replaced by the
    cleaned one: [EscapedPath] percent-encodes (upper-case hex) every
    byte but the unreserved ones and the reserved ones allowed in a
    path ([shouldEscape] in mode [encodePath]).  The model's requests
    carry no query string, which would follow the path. *)
Definition hex_upper (n : nat) : ascii :=
  match List.nth_error (list_ascii_of_string "0123456789ABCDEF") n with
  | Some c => c
  | None => "0"%char
  end.

Definition in_chars (c : ascii) (cs : string) : bool :=
  existsb (Ascii.eqb c) (list_ascii_of_string cs).

Definition should_escape_path (c : ascii) : bool :=
  let n := nat_of_ascii c in
  negb ((Nat.leb 97 n && Nat.leb n 122) || (Nat.leb 65 n && Nat.leb n 90)
        || (Nat.leb 48 n && Nat.leb n 57)
        || in_chars c "-_.~" || in_chars c "$&+,/:;=@").

Fixpoint escape_path (s : string) : string :=
  match s with
  | EmptyString => EmptyString
  | String c s' =>
      if should_escape_path c
      then String "%"%char (String (hex_upper (Nat.div (nat_of_ascii c) 16))
             (String (hex_upper (Nat.modulo (nat_of_ascii c) 16)) (escape_path s')))
      else String c (escape_path s')
  end.

(* ------------------------------------------------------------------ *)
(** ** Authentication, middlewares, handlers *)

(** What the verifier endpoint does with one request: [http.NewRequest]
    fails (bad URI), the transport fails, or it answers. *)
Inductive verifier_reply :=
| VRequestError
| VTransportError
| VResponse (code : Z) (b : body).

Section Service.

(** The verifier service, an external collaborator: its reply to a GET of
    the URI with the given [Authorization] token. *)
Variable verifier_call : string -> string -> verifier_reply.

(** The [VerifierURI] configuration value (config.go). *)
Variable VerifierURI : string.

(** [AuthenticateUser(verifierURI, token)]: [Some u] for [(&user, nil)],
    [None] for [(nil, err)]. *)
Definition AuthenticateUser (verifierURI token : string) : option User :=
  match verifier_call verifierURI token with
  | VResponse code b =>
      if Z.eqb code 200 then
        let '(u, err) := decode_user b zero_user in
        if err then None else Some u
      else None
  | _ => None
  end.

Definition ContentTypeMiddleware (next : Handler) : Handler :=
  fun r w => next r (w_add "Content-Type" "application/json" w).

(** [log.Println] output is not modelled. *)
Definition LogRequestsMiddleware (next : Handler) : Handler :=
  fun r w => next r w.

Definition AuthenticationMiddleware (verifierURI key : string) (next : Handler) : Handler :=
  fun r w =>
    let token := header_get "Authorization" (req_header r) in
    match AuthenticateUser verifierURI token with
    | None => ret (http_error "Forbidden" 403 w)
    | Some u => next (with_value r (KString key) (VUser u)) w
    end.

(** [r.Context().Value(a.requestUserKey).(User)]: panics unless the
    value stored under the key is a [User]. *)
Definition request_user (a : App) (r : request) : M User :=
  match ctx_lookup (KString (requestUserKey a)) (req_ctx r) with
  | Some (VUser u) => ret u
  | _ => panic
  end.

Definition getRatings (a : App) : Handler :=
  fun r w =>
    res <- GetAvgRatings;;
    match res with
    | Err _ => ret (http_error "Error" 500 w)
    | Ok ratings =>
        if Nat.eqb (length ratings) 0 then ret (write (CJson (JArr [])) w)
        else ret (write (CJson (JArr (map encode_rating ratings))) w)
    end.

Definition getRating (a : App) : Handler :=
  fun r w =>
    user <- request_user a r;;
    let params := req_vars r in
    res <- GetRating (var_lookup "id" params) (ID user);;
    match res with
    | Err _ => ret (http_error "Error" 500 w)
    | Ok rating => ret (write (CJson (encode_rating rating)) w)
    end.

(** Lines 110-117 of [putRating]: decode the body into a zero [Rating],
    discard the decode error, then overwrite [GameID] and [UserID]. *)
Definition put_input (b : body) (gameID userID : string) : Rating :=
  let '(decoded, _) := decode_rating b zero_rating in
  mkRating userID gameID (rating decoded).

Definition putRating (a : App) : Handler :=
  fun r w =>
    user <- request_user a r;;
    let params := req_vars r in
    let rating := put_input (req_body r) (var_lookup "id" params) (ID user) in
    res <- PutRating rating;;
    match res with
    | Err _ => ret (http_error "Error" 400 w)
    | Ok _ => getRating a r w
    end.

Definition run_handler (a : App) (h : handler_name) : Handler :=
  match h with
  | HgetRatings => getRatings a
  | HgetRating => getRating a
  | HputRating => putRating a
  end.

Definition run_middleware (m : middleware) : Handler -> Handler :=
  match m with
  | MLogRequests => LogRequestsMiddleware
  | MAuthentication uri key => AuthenticationMiddleware uri key
  | MContentType => ContentTypeMiddleware
  end.

(** [Router.ServeHTTP]: a path that is not in canonical form is
    redirected (301 with [Location]) before any route is tried; on a
    match the middlewares wrap the handler, the first registered
    outermost; without a match no middleware runs. *)
Definition router_serve (a : App) (rt : Router) : Handler :=
  fun r w =>
    let p := clean_path (path r) in
    if negb (String.eqb p (path r))
    then ret (write_header 301 (w_set "Location" (escape_path p) w))
    else
      match route rt r with
      | RMatch h vs => fold_right run_middleware (run_handler a h) (middlewares rt) (with_vars r vs) w
      | RMethodMismatch => ret (write_header 405 w)
      | RNotFound => ret (http_error "404 page not found" 404 w)
      end.

(** [App.Initialize]. *)
Definition Initialize (a : App) : M (result App) :=
  res <- repo_Initialize;;
  match res with
  | Err e => ret (Err e)
  | Ok _ =>
      let a1 := mkApp (Host a) (Port a) "user" (router a) in
      let rt := mkRouter
        [("GET", PRoot, HgetRatings); ("GET", PId, HgetRating); ("PUT", PId, HputRating)]
        [MLogRequests; MAuthentication VerifierURI (requestUserKey a1); MContentType] in
      ret (Ok (mkApp (Host a1) (Port a1) (requestUserKey a1) (Some rt)))
  end.

(** One request served by [http.ListenAndServe(..., a.router)]; a nil
    router panics. *)
Definition serve (a : App) (r : request) : M response :=
  match router a with
  | None => panic
  | Some rt => w <- router_serve a rt r empty_writer;; ret (finish w)
  end.

End Service.

(* ------------------------------------------------------------------ *)
(** ** Derived notions used in the statements *)

(** The router that [Initialize] builds for the verifier URI [uri]. *)
Definition initialized_router (uri : string) : Router :=
  mkRouter
    [("GET", PRoot, HgetRatings); ("GET", PId, HgetRating); ("PUT", PId, HputRating)]
    [MLogRequests; MAuthentication uri "user"; MContentType].

(** A path segment that [{id}] matches. *)
Definition segment_ok (id : string) : bool :=
  negb (String.eqb id "") && no_slash id.

(** Number of stored documents for the key [(g, u)]. *)
Definition count_key (g u : string) (l : list Rating) : nat :=
  length (filter (matches g u) l).

(** At most one document per [(game_id, user_id)]. *)
Definition unique_keys (l : list Rating) : Prop :=
  forall g u, (count_key g u l <= 1)%nat.


(** Sum and number of the stored ratings of game [g]. *)
Definition game_sum (g : string) (l : list Rating) : Z :=
  fold_right Z.add 0 (map rating (filter (fun d => String.eqb (GameID d) g) l)).

Definition game_count (g : string) (l : list Rating) : nat :=
  length (filter (fun d => String.eqb (GameID d) g) l).

(** The running (sum, count) of game [g] in the [$group] accumulator. *)
Fixpoint ginfo (g : string) (gs : list (string * Z * positive)) : option (Z * Z) :=
  match gs with
  | [] => None
  | (k, sum, cnt) :: gs' => if String.eqb k g then Some (sum, Zpos cnt) else ginfo g gs'
  end.

Definition gkeys (gs : list (string * Z * positive)) : list string :=
  map (fun '(k, _, _) => k) gs.

(** Every stored document holds a valid rating. *)
Definition docs_valid (l : list Rating) : Prop := Forall (fun d => valid d = true) l.

Definition desc (x y : string * Q) : Prop := Qle (snd y) (snd x).

(* ------------------------------------------------------------------ *)
(** ** Sample inputs *)

(** A verifier accepting the token ["good"] as user ["u1"]. *)
Definition sample_verifier (uri token : string) : verifier_reply :=
  if String.eqb token "good"
  then VResponse 200 (BodyJson (JObj [("id", JStr "u1")]))
  else VResponse 401 BodyMalformed.

Definition sample_uri : string := "http://verifier/success".
Definition sample_app0 : App := mkApp "" "8000" "" None.
Definition sample_db : db := mkDb [] true [].
Definition sample_user : User := mkUser "u1" "" "" "".

Definition sample_app : App :=
  mkApp "" "8000" "user" (Some (initialized_router sample_uri)).

Definition sample_request (m p token : string) (b : body) : request :=
  mkRequest m p [("Authorization", token)] b [] [].

Definition sample_hdrs : list (string * string) := [("Authorization", "good")].

(** The store of the failing input for C1: two ratings of game ["g"]
    whose mean is 4.5. *)
Definition store_half_mean : db :=
  mkDb [mkRating "u1" "g" 5; mkRating "u2" "g" 4] true [].

(** The request of C7's counterexample: [PUT /g1] by user ["u1"] with a
    body that is not JSON. *)
Definition malformed_put : request :=
  sample_request "PUT" "/g1" "good" BodyMalformed.

(** A reachable store with two games: ["g1"] rated 5 and 3, ["g2"] rated 2. *)
Definition store_two_games : db :=
  mkDb [mkRating "u1" "g1" 5; mkRating "u2" "g1" 3; mkRating "u1" "g2" 2] true [].

(** A store that cannot be reached. *)
Definition store_down : db := mkDb [mkRating "u1" "g1" 4] false [].

(* ------------------------------------------------------------------ *)
(** ** Lemmas on the repository *)

Lemma matches_self (r : Rating) : matches (GameID r) (UserID r) r = true.
Proof. unfold matches. rewrite !String.eqb_refl. reflexivity. Qed.

Lemma matches_same_key (g u g' u' : string) (d r : Rating) :
  matches g u d = true -> matches g u r = true ->
  matches g' u' d = matches g' u' r.
Proof.
  unfold matches. intros Hd Hr.
  apply andb_prop in Hd as [Hd1 Hd2]. apply andb_prop in Hr as [Hr1 Hr2].
  apply String.eqb_eq in Hd1, Hd2, Hr1, Hr2.
  rewrite Hd1, Hd2, Hr1, Hr2. reflexivity.
Qed.

Lemma matches_key_eq (g u : string) (r : Rating) :
  matches g u r = true -> g = GameID r /\ u = UserID r.
Proof.
  unfold matches. intros H. apply andb_prop in H as [H1 H2].
  apply String.eqb_eq in H1, H2. auto.
Qed.

Lemma find_none_of_existsb {A} (f : A -> bool) (l : list A) :
  existsb f l = false -> find f l = None.
Proof.
  induction l as [|x l IH]; simpl; [reflexivity|].
  intros H. apply orb_false_iff in H as [H1 H2]. rewrite H1. auto.
Qed.

Lemma find_upsert (g u : string) (r : Rating) (l : list Rating) :
  matches g u r = true -> find (matches g u) (upsert g u r l) = Some r.
Proof.
  intros Hr. unfold upsert.
  induction l as [|d l IH]; simpl.
  - rewrite Hr. reflexivity.
  - destruct (matches g u d) eqn:Hd; simpl.
    + rewrite Hr. reflexivity.
    + destruct (replace_first g u r l) eqn:Hrep; simpl; rewrite Hd; exact IH.
Qed.

Lemma replace_first_count (g u g' u' : string) (r : Rating) (l l' : list Rating) :
  matches g u r = true -> replace_first g u r l = Some l' ->
  count_key g' u' l' = count_key g' u' l /\ (1 <= count_key g u l)%nat.
Proof.
  unfold count_key. intros Hr.
  revert l'. induction l as [|d l IH]; simpl; intros l' Hrep; [discriminate|].
  destruct (matches g u d) eqn:Hd.
  - injection Hrep as <-. simpl.
    rewrite (matches_same_key g u g' u' d r Hd Hr).
    split; [destruct (matches g' u' r); reflexivity | lia].
  - destruct (replace_first g u r l) as [l0|] eqn:H0; simpl in Hrep; [|discriminate].
    injection Hrep as <-. destruct (IH l0 eq_refl) as [IH1 IH2]. simpl.
    destruct (matches g' u' d); simpl; split; lia.
Qed.

Lemma replace_first_none (g u : string) (r : Rating) (l : list Rating) :
  replace_first g u r l = None -> count_key g u l = 0%nat.
Proof.
  unfold count_key. induction l as [|d l IH]; simpl; [reflexivity|].
  destruct (matches g u d); [discriminate|].
  destruct (replace_first g u r l); simpl; [discriminate|auto].
Qed.

Lemma count_key_app (g u : string) (l1 l2 : list Rating) :
  count_key g u (l1 ++ l2) = (count_key g u l1 + count_key g u l2)%nat.
Proof. unfold count_key. rewrite filter_app, length_app. reflexivity. Qed.

Lemma count_key_single (g u : string) (r : Rating) :
  count_key g u [r] = if matches g u r then 1%nat else 0%nat.
Proof. unfold count_key. simpl. destruct (matches g u r); reflexivity. Qed.

Lemma upsert_unique (g u : string) (r : Rating) (l : list Rating) :
  matches g u r = true -> unique_keys l -> unique_keys (upsert g u r l).
Proof.
  intros Hr Hl g' u'. unfold upsert.
  destruct (replace_first g u r l) as [l'|] eqn:Hrep.
  - destruct (replace_first_count g u g' u' r l l' Hr Hrep) as [-> _]. apply Hl.
  - rewrite count_key_app.
    destruct (matches g' u' r) eqn:Hr'.
    + destruct (matches_key_eq g u r Hr) as [-> ->].
      destruct (matches_key_eq g' u' r Hr') as [-> ->].
      rewrite (replace_first_none _ _ r l Hrep), count_key_single, Hr'. lia.
    + rewrite count_key_single, Hr'. specialize (Hl g' u'). lia.
Qed.

Lemma count_upsert_self (g u : string) (r : Rating) (l : list Rating) :
  matches g u r = true -> (count_key g u l <= 1)%nat ->
  count_key g u (upsert g u r l) = 1%nat.
Proof.
  intros Hr Hl. unfold upsert.
  destruct (replace_first g u r l) as [l'|] eqn:Hrep.
  - destruct (replace_first_count g u g u r l l' Hr Hrep) as [-> H]. lia.
  - rewrite count_key_app, (replace_first_none _ _ r l Hrep), count_key_single, Hr.
    reflexivity.
Qed.

Lemma PutRating_ok (r : Rating) (s : db) :
  db_up s = true -> valid r = true ->
  PutRating r s =
    (Some (Ok tt), mkDb (upsert (GameID r) (UserID r) r (docs s)) true (OpReplaceOne r :: ops s)).
Proof.
  intros Hup Hv. unfold PutRating. rewrite Hv. simpl.
  unfold replace_one, bind, issue, get_db, set_docs, ret. simpl.
  rewrite Hup. reflexivity.
Qed.

Lemma GetRating_up (g u : string) (s : db) :
  db_up s = true ->
  fst (GetRating g u s) =
    Some (Ok (match find (matches g u) (docs s) with
              | Some d => d
              | None => mkRating "" g 0
              end)).
Proof.
  intros Hup. unfold GetRating, find_one, bind, issue, get_db, ret. simpl.
  rewrite Hup. destruct (find (matches g u) (docs s)); reflexivity.
Qed.

Lemma PutRating_invalid (r : Rating) (s : db) :
  valid r = false -> PutRating r s = (Some (Err ErrInvalid), s).
Proof. intros Hv. unfold PutRating. rewrite Hv. reflexivity. Qed.

Lemma valid_false_iff (r : Rating) :
  valid r = false <-> rating r < 1 \/ 5 < rating r.
Proof.
  unfold valid. rewrite andb_false_iff, !Z.leb_gt. lia.
Qed.

(* ------------------------------------------------------------------ *)
Lemma split_slash_no_slash (s : string) :
  no_slash s = true -> split_slash s = [s].
Proof.
  induction s as [|c s IH]; [reflexivity|].
  cbn [no_slash split_slash]. intros H. apply andb_true_iff in H as [Hc Hs].
  apply negb_true_iff in Hc. rewrite Hc, (IH Hs). reflexivity.
Qed.

Lemma last_is_slash_no_slash (s : string) :
  no_slash s = true -> last_is_slash s = false.
Proof.
  induction s as [|c s IH]; [reflexivity|].
  cbn [no_slash]. intros H. apply andb_true_iff in H as [Hc Hs].
  apply negb_true_iff in Hc. destruct s as [|c' s'].
  - exact Hc.
  - exact (IH Hs).
Qed.

(** A path ["/" ++ id] whose segment is neither ["."] nor [".."] is in
    canonical form: the router does not redirect it. *)
Lemma clean_segment (id : string) :
  segment_ok id = true -> id <> "." -> id <> ".." ->
  clean_path (String "/"%char id) = String "/"%char id.
Proof.
  unfold segment_ok. intros H Hd Hdd. apply andb_true_iff in H as [He Hs].
  apply negb_true_iff in He.
  unfold clean_path. cbn [Ascii.eqb Bool.eqb].
  unfold path_clean_rooted. cbn [split_slash Ascii.eqb Bool.eqb].
  rewrite (split_slash_no_slash _ Hs). cbn [clean_elems String.eqb orb].
  rewrite He. apply String.eqb_neq in Hd. apply String.eqb_neq in Hdd.
  rewrite Hd, Hdd. cbn [orb rev app String.concat].
  destruct id as [|c id']; [discriminate|].
  change (last_is_slash (String "/"%char (String c id'))) with (last_is_slash (String c id')).
  rewrite (last_is_slash_no_slash _ Hs). reflexivity.
Qed.

Lemma clean_request (m id : string) (hdrs : list (string * string)) (b : body)
      (ctx : list (ctx_key * ctx_value)) (vs : list (string * string)) :
  segment_ok id = true -> id <> "." -> id <> ".." ->
  clean_path (path (mkRequest m (String "/"%char id) hdrs b ctx vs))
  = path (mkRequest m (String "/"%char id) hdrs b ctx vs).
Proof. exact (clean_segment id). Qed.

(** ** Lemmas on initialization, routing and the middleware chain *)

Lemma Initialize_ok (uri : string) (a0 a : App) (s0 s1 : db) :
  Initialize uri a0 s0 = (Some (Ok a), s1) ->
  a = mkApp (Host a0) (Port a0) "user" (Some (initialized_router uri)).
Proof.
  unfold Initialize, repo_Initialize, bind, issue, get_db, ret. simpl.
  destruct (db_up s0); simpl; intros H; inversion H; reflexivity.
Qed.

Lemma route_id (uri m id : string) (hdrs : list (string * string)) (b : body)
      (ctx : list (ctx_key * ctx_value)) (vs : list (string * string)) :
  segment_ok id = true ->
  route (initialized_router uri) (mkRequest m (String "/"%char id) hdrs b ctx vs) =
    if String.eqb "GET" m then RMatch HgetRating [("id", id)]
    else if String.eqb "PUT" m then RMatch HputRating [("id", id)]
    else RMethodMismatch.
Proof.
  unfold segment_ok. intros H. apply andb_prop in H as [H1 H2].
  apply negb_true_iff in H1.
  assert (Hroot : String.eqb (String "/"%char id) "/" = String.eqb id "") by reflexivity.
  unfold route, initialized_router.
  cbn [find_route match_pattern method path routes fst snd].
  rewrite Hroot, H1. cbn [Ascii.eqb Bool.eqb andb negb]. rewrite H2.
  destruct (String.eqb "GET" m); [reflexivity|].
  destruct (String.eqb "PUT" m); [reflexivity|].
  cbn [existsb match_pattern]. rewrite Hroot, H1. cbn [Ascii.eqb Bool.eqb andb negb orb].
  rewrite H2. reflexivity.
Qed.

(** On a routed request the app runs logging, then authentication, then
    the content-type stamp, then the handler. *)
Lemma serve_routed (ver : string -> string -> verifier_reply) (uri : string)
      (a0 a : App) (s0 s1 : db) (r : request) (h : handler_name)
      (vs : list (string * string)) (s : db) :
  Initialize uri a0 s0 = (Some (Ok a), s1) ->
  clean_path (path r) = path r ->
  route (initialized_router uri) r = RMatch h vs ->
  serve ver a r s =
    match AuthenticateUser ver uri (header_get "Authorization" (req_header r)) with
    | None => (Some (finish (http_error "Forbidden" 403 empty_writer)), s)
    | Some u =>
        let '(o, s') := run_handler a h (with_value (with_vars r vs) (KString "user") (VUser u))
                          (w_add "Content-Type" "application/json" empty_writer) s in
        (option_map finish o, s')
    end.
Proof.
  intros HI Hc HR. pose proof (Initialize_ok _ _ _ _ _ HI) as ->.
  unfold serve. cbn [router]. unfold router_serve. rewrite Hc, String.eqb_refl.
  cbn [negb]. rewrite HR.
  simpl fold_right. unfold LogRequestsMiddleware, AuthenticationMiddleware, ContentTypeMiddleware.
  simpl req_header.
  destruct (AuthenticateUser ver uri (header_get "Authorization" (req_header r))) as [u|];
    unfold bind, ret; [|reflexivity].
  destruct (run_handler _ h _ _ s) as [[w'|] s']; reflexivity.
Qed.



Lemma GetRating_total (g u : string) (s : db) :
  exists res s', GetRating g u s = (Some res, s').
Proof.
  unfold GetRating, find_one, bind, issue, get_db, ret. simpl.
  destruct (db_up s); [destruct (find _ _)|]; eauto.
Qed.

Lemma GetAvgRatings_total (s : db) :
  exists res s', GetAvgRatings s = (Some res, s').
Proof.
  unfold GetAvgRatings, bind, issue, get_db, ret. simpl.
  destruct (db_up s); eauto.
Qed.

Lemma PutRating_total (r : Rating) (s : db) :
  exists res s', PutRating r s = (Some res, s').
Proof.
  unfold PutRating, replace_one, bind, issue, get_db, set_docs, ret.
  destruct (negb (valid r)); [eauto|]. simpl.
  destruct (db_up s); eauto.
Qed.

(** A handler whose request carries a [User] under the app's key never
    panics. *)
Lemma handler_no_panic (a : App) (h : handler_name) (r : request) (w : writer) (s : db) (u : User) :
  ctx_lookup (KString (requestUserKey a)) (req_ctx r) = Some (VUser u) ->
  fst (run_handler a h r w s) <> None.
Proof.
  intros Hu.
  assert (Hget : forall r' w' s', ctx_lookup (KString (requestUserKey a)) (req_ctx r') = Some (VUser u) ->
                   fst (getRating a r' w' s') <> None).
  { intros r' w' s' Hu'. unfold getRating, request_user, bind, ret. rewrite Hu'.
    destruct (GetRating_total (var_lookup "id" (req_vars r')) (ID u) s') as ([rt|e] & s1 & ->);
      simpl; discriminate. }
  destruct h; simpl.
  - unfold getRatings, bind, ret.
    destruct (GetAvgRatings_total s) as ([rs|e] & s1 & ->); simpl;
      [destruct (Nat.eqb (length rs) 0)|]; discriminate.
  - apply Hget; exact Hu.
  - unfold putRating, request_user, bind, ret. rewrite Hu.
    destruct (PutRating_total (put_input (req_body r) (var_lookup "id" (req_vars r)) (ID u)) s)
      as ([[]|e] & s1 & ->); simpl; [apply Hget; exact Hu|discriminate].
Qed.

(* ------------------------------------------------------------------ *)
(** ** Claims *)

(** C1 (code defect): the mean of the ratings 5 and 4 of one game is 9/2,
    but [GetAvgRatings] decodes the [$avg] result into the [int] field
    [Rating], which the bson decoder refuses for a non-integral double:
    the repository returns an error and [GET /] answers 500 instead of
    listing the average. *)
Theorem GetAvgRatings_non_integral_mean :
  group_avg (docs store_half_mean) = [("g", 9 # 2)] /\
  GetAvgRatings store_half_mean =
    (Some (Err ErrTruncate), mkDb (docs store_half_mean) true [OpAggregate]) /\
  fst (serve sample_verifier sample_app (sample_request "GET" "/" "good" BodyMalformed)
         store_half_mean) =
    Some (finish (http_error "Error" 500 (w_add "Content-Type" "application/json" empty_writer))).
Proof. vm_compute. repeat split. Qed.

(** C2: a rating outside [1, 5] is refused by [PutRating] with the
    validation error and the store (documents and issued operations) is
    left exactly as it was; in particular [PUT /{id}] with body
    [{"rating": n}], n outside [1, 5] (e.g. 7), answers 400 and leaves the
    store unchanged, for every id the route [/{id}] serves without
    redirecting (the router answers the paths ["/."] and ["/.."] with a
    301 redirect to ["/"] before any handler runs). *)
Theorem PutRating_invalid_untouched
    (ver : string -> string -> verifier_reply) (uri : string) (a0 a : App) (s0 s1 : db)
    (id : string) (hdrs : list (string * string)) (ctx : list (ctx_key * ctx_value))
    (vs : list (string * string)) (u : User) (s : db) (n : Z) :
  Initialize uri a0 s0 = (Some (Ok a), s1) ->
  segment_ok id = true -> id <> "." -> id <> ".." ->
  AuthenticateUser ver uri (header_get "Authorization" hdrs) = Some u ->
  n < 1 \/ 5 < n ->
  (forall (r : Rating) (s' : db), valid r = false -> PutRating r s' = (Some (Err ErrInvalid), s')) /\
  exists resp,
    serve ver a (mkRequest "PUT" (String "/"%char id) hdrs (BodyJson (JObj [("rating", JInt n)])) ctx vs) s
      = (Some resp, s) /\ status resp = 400.
Proof.
  intros HI Hid Hd Hdd Hauth Hn. split; [exact PutRating_invalid|].
  pose proof (Initialize_ok _ _ _ _ _ HI) as Ha.
  rewrite (serve_routed ver uri a0 a s0 s1 _ HputRating [("id", id)] s HI
             (clean_request _ id hdrs _ ctx vs Hid Hd Hdd));
    [|rewrite route_id by exact Hid; reflexivity].
  cbn [req_header]. rewrite Hauth.
  subst a. cbn [run_handler]. unfold putRating, request_user, bind, ret.
  cbn [req_ctx with_value with_vars requestUserKey ctx_lookup ctx_key_eqb].
  change (String.eqb "user" "user") with true.
  cbn [req_vars req_body var_lookup with_value with_vars]. change (String.eqb "id" "id") with true.
  rewrite PutRating_invalid.
  - eexists. split; reflexivity.
  - apply valid_false_iff. unfold put_input, decode_rating. simpl.
    destruct ((int_min <=? n) && (n <=? int_max)); simpl; lia.
Qed.

(** C3: when the store is reachable and holds no document for
    [(gameID, userID)], [GetRating] succeeds with the zero rating whose
    [rating] is 0 and whose [GameID] is the requested game. *)
Theorem GetRating_absent_zero (g u : string) (s : db) :
  db_up s = true ->
  existsb (matches g u) (docs s) = false ->
  fst (GetRating g u s) = Some (Ok (mkRating "" g 0)) /\
  GameID (mkRating "" g 0) = g /\ rating (mkRating "" g 0) = 0.
Proof.
  intros Hup Hnone. rewrite GetRating_up by exact Hup.
  rewrite find_none_of_existsb by exact Hnone. auto.
Qed.

(** C4: on a reachable store with at most one document per key, a valid
    [PutRating] followed by [GetRating] on the same key reads the written
    rating back; a second valid [PutRating] on the same key makes
    [GetRating] read the second rating, and exactly one document for the
    key remains (and still at most one per key overall). *)
Theorem put_get_upsert (s : db) (r1 r2 : Rating) :
  db_up s = true -> valid r1 = true -> valid r2 = true ->
  GameID r2 = GameID r1 -> UserID r2 = UserID r1 ->
  unique_keys (docs s) ->
  let s1 := snd (PutRating r1 s) in
  let s2 := snd (PutRating r2 s1) in
  fst (PutRating r1 s) = Some (Ok tt) /\
  fst (GetRating (GameID r1) (UserID r1) s1) = Some (Ok r1) /\
  fst (PutRating r2 s1) = Some (Ok tt) /\
  fst (GetRating (GameID r1) (UserID r1) s2) = Some (Ok r2) /\
  count_key (GameID r1) (UserID r1) (docs s2) = 1%nat /\
  unique_keys (docs s2).
Proof.
  intros Hup Hv1 Hv2 Hg Hu Huniq s1 s2. subst s1 s2.
  assert (Hm2 : matches (GameID r1) (UserID r1) r2 = true)
    by (rewrite <- Hg, <- Hu; apply matches_self).
  rewrite (PutRating_ok r1 s Hup Hv1). cbn [fst snd].
  rewrite (PutRating_ok r2) by (simpl; auto || exact Hv2). cbn [fst snd docs].
  rewrite Hg, Hu.
  set (l1 := upsert (GameID r1) (UserID r1) r1 (docs s)).
  assert (Hu1 : unique_keys l1) by (apply upsert_unique; [apply matches_self|exact Huniq]).
  repeat split.
  - rewrite GetRating_up by reflexivity. cbn [docs]. unfold l1.
    rewrite find_upsert by apply matches_self. reflexivity.
  - rewrite GetRating_up by reflexivity. cbn [docs].
    rewrite find_upsert by exact Hm2. reflexivity.
  - apply count_upsert_self; [exact Hm2 | apply Hu1].
  - apply upsert_unique; [exact Hm2 | exact Hu1].
Qed.



(** C6: on every route, a request whose authentication fails gets the
    403 [Forbidden] response (a request that reaches a route: its path
    is in canonical form, as the router redirects the others with 301
    before any middleware runs): the authentication middleware answers the
    same whatever handler it wraps (so the handler is never run), and the
    served request leaves the store untouched, with no store operation
    issued. *)
Theorem auth_failure_forbidden
    (ver : string -> string -> verifier_reply) (uri : string) (a0 a : App) (s0 s1 : db)
    (r : request) (h : handler_name) (vs : list (string * string)) (s : db) :
  Initialize uri a0 s0 = (Some (Ok a), s1) ->
  clean_path (path r) = path r ->
  route (initialized_router uri) r = RMatch h vs ->
  AuthenticateUser ver uri (header_get "Authorization" (req_header r)) = None ->
  (forall (key : string) (next : Handler) (w : writer) (s' : db),
      AuthenticationMiddleware ver uri key next r w s' = (Some (http_error "Forbidden" 403 w), s')) /\
  serve ver a r s = (Some (finish (http_error "Forbidden" 403 empty_writer)), s) /\
  status (finish (http_error "Forbidden" 403 empty_writer)) = 403.
Proof.
  intros HI Hc HR Hauth. split; [|split].
  - intros key next w s'. unfold AuthenticationMiddleware. rewrite Hauth. reflexivity.
  - rewrite (serve_routed ver uri a0 a s0 s1 r h vs s HI Hc HR), Hauth. reflexivity.
  - reflexivity.
Qed.

(** C7 (counterexample): the malformed body decodes to the zero rating,
    which fails validation: the answer is 400 and nothing is written, in
    particular no rating 0 for ["g1"] and ["u1"] is stored. *)
Lemma malformed_put_writes_nothing :
  snd (serve sample_verifier sample_app malformed_put sample_db) = sample_db /\
  ~ In (mkRating "u1" "g1" 0) (docs (snd (serve sample_verifier sample_app malformed_put sample_db))) /\
  exists resp, fst (serve sample_verifier sample_app malformed_put sample_db) = Some resp /\
               status resp = 400.
Proof.
  split; [vm_compute; reflexivity|]. split.
  - vm_compute. intros [].
  - eexists. split; [vm_compute; reflexivity|reflexivity].
Qed.

(** C7 (amended): for [PUT /{id}] with a malformed body the decode error
    is discarded and the handler goes on with the zero rating merged with
    the route's [id] and the user's [ID]; that value fails validation, so
    the answer is 400 and the store is left unchanged (nothing written),
    for every id the route [/{id}] serves without redirecting (not
    ["."] or [".."]). *)
Theorem put_malformed_rejected
    (ver : string -> string -> verifier_reply) (uri : string) (a0 a : App) (s0 s1 : db)
    (id : string) (hdrs : list (string * string)) (ctx : list (ctx_key * ctx_value))
    (vs : list (string * string)) (u : User) (s : db) :
  Initialize uri a0 s0 = (Some (Ok a), s1) ->
  segment_ok id = true -> id <> "." -> id <> ".." ->
  AuthenticateUser ver uri (header_get "Authorization" hdrs) = Some u ->
  put_input BodyMalformed id (ID u) = mkRating (ID u) id 0 /\
  exists resp,
    serve ver a (mkRequest "PUT" (String "/"%char id) hdrs BodyMalformed ctx vs) s = (Some resp, s) /\
    status resp = 400.
Proof.
  intros HI Hid Hd Hdd Hauth. split; [reflexivity|].
  pose proof (Initialize_ok _ _ _ _ _ HI) as Ha.
  rewrite (serve_routed ver uri a0 a s0 s1 _ HputRating [("id", id)] s HI
             (clean_request _ id hdrs _ ctx vs Hid Hd Hdd));
    [|rewrite route_id by exact Hid; reflexivity].
  cbn [req_header]. rewrite Hauth.
  subst a. cbn [run_handler]. unfold putRating, request_user, bind, ret.
  cbn [req_ctx with_value with_vars requestUserKey ctx_lookup ctx_key_eqb].
  change (String.eqb "user" "user") with true.
  cbn [req_vars req_body var_lookup with_value with_vars]. change (String.eqb "id" "id") with true.
  rewrite PutRating_invalid by reflexivity.
  eexists. split; reflexivity.
Qed.

(** C8: when the write of a [PUT /{id}] succeeds, the whole answer (and
    the resulting store) is the one [GET /{id}] by the same user gives on
    the store just written: the handler re-reads the stored rating instead
    of echoing its input.  This holds for every id the route [/{id}]
    serves without redirecting: for ["."] and [".."] the router answers
    301 and nothing is written. *)
Theorem put_response_is_get
    (ver : string -> string -> verifier_reply) (uri : string) (a0 a : App) (s0 s1 : db)
    (id : string) (hdrs : list (string * string)) (b b' : body)
    (ctx : list (ctx_key * ctx_value)) (vs vs' : list (string * string))
    (u : User) (s s' : db) :
  Initialize uri a0 s0 = (Some (Ok a), s1) ->
  segment_ok id = true -> id <> "." -> id <> ".." ->
  AuthenticateUser ver uri (header_get "Authorization" hdrs) = Some u ->
  PutRating (put_input b id (ID u)) s = (Some (Ok tt), s') ->
  serve ver a (mkRequest "PUT" (String "/"%char id) hdrs b ctx vs) s =
  serve ver a (mkRequest "GET" (String "/"%char id) hdrs b' ctx vs') s'.
Proof.
  intros HI Hid Hd Hdd Hauth Hput.
  rewrite (serve_routed ver uri a0 a s0 s1 (mkRequest "PUT" (String "/"%char id) hdrs b ctx vs)
             HputRating [("id", id)] s HI (clean_request _ id hdrs _ ctx vs Hid Hd Hdd))
    by (rewrite route_id by exact Hid; reflexivity).
  rewrite (serve_routed ver uri a0 a s0 s1 (mkRequest "GET" (String "/"%char id) hdrs b' ctx vs')
             HgetRating [("id", id)] s' HI (clean_request _ id hdrs _ ctx vs' Hid Hd Hdd))
    by (rewrite route_id by exact Hid; reflexivity).
  cbn [req_header]. rewrite Hauth.
  pose proof (Initialize_ok _ _ _ _ _ HI) as Ha. subst a.
  cbn [run_handler]. unfold putRating, request_user, bind, ret.
  cbn [req_ctx with_value with_vars requestUserKey ctx_lookup ctx_key_eqb].
  change (String.eqb "user" "user") with true.
  cbn [req_vars req_body var_lookup with_value with_vars]. change (String.eqb "id" "id") with true.
  change (if true then id else "") with id.
  rewrite Hput. reflexivity.
Qed.

(** C9: [valid] holds exactly for the ratings 1 to 5; it fails for 0 and
    6; a non-integral JSON number cannot become a [Rating]: Go refuses it
    for the [int] field, so [PUT] goes on with rating 0, which is not
    valid. *)
Theorem valid_iff_range :
  (forall (u g : string) (n : Z), valid (mkRating u g n) = true <-> 1 <= n <= 5) /\
  (forall (u g : string), valid (mkRating u g 0) = false /\ valid (mkRating u g 6) = false) /\
  (forall (q : Q) (gameID userID : string),
      put_input (BodyJson (JObj [("rating", JFrac q)])) gameID userID = mkRating userID gameID 0 /\
      valid (put_input (BodyJson (JObj [("rating", JFrac q)])) gameID userID) = false).
Proof.
  split; [|split].
  - intros u g n. unfold valid. cbn [rating].
    rewrite andb_true_iff, !Z.leb_le. reflexivity.
  - intros u g. split; reflexivity.
  - intros q gameID userID. split; reflexivity.
Qed.

(** C10: once [Initialize] succeeded, serving any request never panics:
    the handlers' [r.Context().Value(a.requestUserKey).(User)] always
    finds a [User], stored under the same key ["user"] by the
    authentication middleware that wraps every route. *)
Theorem user_assertion_never_panics
    (ver : string -> string -> verifier_reply) (uri : string) (a0 a : App) (s0 s1 : db)
    (r : request) (s : db) :
  Initialize uri a0 s0 = (Some (Ok a), s1) ->
  fst (serve ver a r s) <> None.
Proof.
  intros HI. pose proof (Initialize_ok _ _ _ _ _ HI) as Ha.
  destruct (String.eqb (clean_path (path r)) (path r)) eqn:Hcl.
  2: { subst a. unfold serve. cbn [router]. unfold router_serve. rewrite Hcl. discriminate. }
  apply String.eqb_eq in Hcl.
  destruct (route (initialized_router uri) r) as [h vs| |] eqn:HR.
  - rewrite (serve_routed ver uri a0 a s0 s1 r h vs s HI Hcl HR).
    destruct (AuthenticateUser _ _ _) as [u|]; [|discriminate].
    set (r' := with_value (with_vars r vs) (KString "user") (VUser u)).
    set (w := w_add "Content-Type" "application/json" empty_writer).
    pose proof (handler_no_panic a h r' w s u) as Hn.
    destruct (run_handler a h r' w s) as [o s'].
    destruct o as [w'|]; [discriminate|].
    exfalso. apply Hn; [|reflexivity].
    subst a r'. cbn. reflexivity.
  - subst a. unfold serve. cbn [router]. unfold router_serve.
    rewrite Hcl, String.eqb_refl. cbn [negb]. rewrite HR. discriminate.
  - subst a. unfold serve. cbn [router]. unfold router_serve.
    rewrite Hcl, String.eqb_refl. cbn [negb]. rewrite HR. discriminate.
Qed.

(* ------------------------------------------------------------------ *)
(** ** Witnesses: the hypotheses of the claims hold on concrete inputs *)

Lemma PutRating_invalid_untouched_witness :
  Initialize sample_uri sample_app0 sample_db = (Some (Ok sample_app), mkDb [] true [OpPing]) /\
  segment_ok "g1" = true /\ "g1" <> "." /\ "g1" <> ".." /\
  AuthenticateUser sample_verifier sample_uri (header_get "Authorization" sample_hdrs) = Some sample_user /\
  (7 < 1 \/ 5 < 7) /\
  ((forall (r : Rating) (s' : db), valid r = false -> PutRating r s' = (Some (Err ErrInvalid), s')) /\
   exists resp,
     serve sample_verifier sample_app
       (mkRequest "PUT" (String "/"%char "g1") sample_hdrs (BodyJson (JObj [("rating", JInt 7)])) [] [])
       sample_db = (Some resp, sample_db) /\ status resp = 400).
Proof.
  split; [reflexivity|]. split; [reflexivity|]. split; [discriminate|]. split; [discriminate|].
  split; [reflexivity|]. split; [lia|].
  apply (PutRating_invalid_untouched sample_verifier sample_uri sample_app0 sample_app sample_db
           (mkDb [] true [OpPing]) "g1" sample_hdrs [] [] sample_user sample_db 7);
    [reflexivity|reflexivity|discriminate|discriminate|reflexivity|lia].
Defined.

Lemma GetRating_absent_zero_witness :
  db_up sample_db = true /\ existsb (matches "g1" "u1") (docs sample_db) = false /\
  (fst (GetRating "g1" "u1" sample_db) = Some (Ok (mkRating "" "g1" 0)) /\
   GameID (mkRating "" "g1" 0) = "g1" /\ rating (mkRating "" "g1" 0) = 0).
Proof.
  split; [reflexivity|]. split; [reflexivity|].
  apply (GetRating_absent_zero "g1" "u1" sample_db); reflexivity.
Defined.

Lemma put_get_upsert_witness :
  let r1 := mkRating "u1" "g1" 3 in
  let r2 := mkRating "u1" "g1" 5 in
  db_up sample_db = true /\ valid r1 = true /\ valid r2 = true /\
  GameID r2 = GameID r1 /\ UserID r2 = UserID r1 /\ unique_keys (docs sample_db) /\
  (let s1 := snd (PutRating r1 sample_db) in
   let s2 := snd (PutRating r2 s1) in
   fst (PutRating r1 sample_db) = Some (Ok tt) /\
   fst (GetRating (GameID r1) (UserID r1) s1) = Some (Ok r1) /\
   fst (PutRating r2 s1) = Some (Ok tt) /\
   fst (GetRating (GameID r1) (UserID r1) s2) = Some (Ok r2) /\
   count_key (GameID r1) (UserID r1) (docs s2) = 1%nat /\
   unique_keys (docs s2)).
Proof.
  intros r1 r2.
  assert (Hu : unique_keys (docs sample_db)) by (intros g u; unfold count_key; simpl; lia).
  split; [reflexivity|]. split; [reflexivity|]. split; [reflexivity|].
  split; [reflexivity|]. split; [reflexivity|]. split; [exact Hu|].
  apply (put_get_upsert sample_db r1 r2); try reflexivity. exact Hu.
Defined.


Lemma auth_failure_forbidden_witness :
  let r := sample_request "GET" "/" "bad" BodyMalformed in
  Initialize sample_uri sample_app0 sample_db = (Some (Ok sample_app), mkDb [] true [OpPing]) /\
  clean_path (path r) = path r /\
  route (initialized_router sample_uri) r = RMatch HgetRatings [] /\
  AuthenticateUser sample_verifier sample_uri (header_get "Authorization" (req_header r)) = None /\
  ((forall (key : string) (next : Handler) (w : writer) (s' : db),
       AuthenticationMiddleware sample_verifier sample_uri key next r w s'
         = (Some (http_error "Forbidden" 403 w), s')) /\
   serve sample_verifier sample_app r sample_db
     = (Some (finish (http_error "Forbidden" 403 empty_writer)), sample_db) /\
   status (finish (http_error "Forbidden" 403 empty_writer)) = 403).
Proof.
  intros r.
  split; [reflexivity|]. split; [reflexivity|]. split; [reflexivity|]. split; [reflexivity|].
  apply (auth_failure_forbidden sample_verifier sample_uri sample_app0 sample_app sample_db
           (mkDb [] true [OpPing]) r HgetRatings [] sample_db); reflexivity.
Defined.

Lemma put_malformed_rejected_witness :
  Initialize sample_uri sample_app0 sample_db = (Some (Ok sample_app), mkDb [] true [OpPing]) /\
  segment_ok "g1" = true /\ "g1" <> "." /\ "g1" <> ".." /\
  AuthenticateUser sample_verifier sample_uri (header_get "Authorization" sample_hdrs) = Some sample_user /\
  (put_input BodyMalformed "g1" (ID sample_user) = mkRating (ID sample_user) "g1" 0 /\
   exists resp,
     serve sample_verifier sample_app
       (mkRequest "PUT" (String "/"%char "g1") sample_hdrs BodyMalformed [] []) sample_db
       = (Some resp, sample_db) /\ status resp = 400).
Proof.
  split; [reflexivity|]. split; [reflexivity|]. split; [discriminate|]. split; [discriminate|].
  split; [reflexivity|].
  apply (put_malformed_rejected sample_verifier sample_uri sample_app0 sample_app sample_db
           (mkDb [] true [OpPing]) "g1" sample_hdrs [] [] sample_user sample_db);
    first [reflexivity | discriminate].
Defined.

Lemma put_response_is_get_witness :
  let b := BodyJson (JObj [("rating", JInt 4)]) in
  let s' := mkDb [mkRating "u1" "g1" 4] true [OpReplaceOne (mkRating "u1" "g1" 4)] in
  Initialize sample_uri sample_app0 sample_db = (Some (Ok sample_app), mkDb [] true [OpPing]) /\
  segment_ok "g1" = true /\ "g1" <> "." /\ "g1" <> ".." /\
  AuthenticateUser sample_verifier sample_uri (header_get "Authorization" sample_hdrs) = Some sample_user /\
  PutRating (put_input b "g1" (ID sample_user)) sample_db = (Some (Ok tt), s') /\
  serve sample_verifier sample_app (mkRequest "PUT" (String "/"%char "g1") sample_hdrs b [] []) sample_db =
  serve sample_verifier sample_app (mkRequest "GET" (String "/"%char "g1") sample_hdrs BodyMalformed [] []) s'.
Proof.
  intros b s'.
  split; [reflexivity|]. split; [reflexivity|]. split; [discriminate|]. split; [discriminate|].
  split; [reflexivity|]. split; [vm_compute; reflexivity|].
  apply (put_response_is_get sample_verifier sample_uri sample_app0 sample_app sample_db
           (mkDb [] true [OpPing]) "g1" sample_hdrs b BodyMalformed [] [] [] sample_user sample_db s');
    [reflexivity|reflexivity|discriminate|discriminate|reflexivity|vm_compute; reflexivity].
Defined.

Lemma user_assertion_never_panics_witness :
  Initialize sample_uri sample_app0 sample_db = (Some (Ok sample_app), mkDb [] true [OpPing]) /\
  fst (serve sample_verifier sample_app
         (sample_request "PUT" "/g1" "good" (BodyJson (JObj [("rating", JInt 2)]))) sample_db) <> None.
Proof.
  split; [reflexivity|].
  apply (user_assertion_never_panics sample_verifier sample_uri sample_app0 sample_app sample_db
           (mkDb [] true [OpPing])); reflexivity.
Defined.

(* ------------------------------------------------------------------ *)
(** ** Further properties: the averaging pipeline *)

Lemma ginfo_group_add (g : string) (d : Rating) (gs : list (string * Z * positive)) :
  ginfo g (group_add d gs) =
    if String.eqb (GameID d) g
    then Some (match ginfo g gs with
               | Some (sum, cnt) => (sum + rating d, cnt + 1)
               | None => (rating d, 1)
               end)
    else ginfo g gs.
Proof.
  induction gs as [|[[k sum] cnt] gs IH]; simpl.
  - destruct (String.eqb (GameID d) g); reflexivity.
  - destruct (String.eqb_spec k (GameID d)) as [->|Hk]; simpl.
    + destruct (String.eqb (GameID d) g); [|reflexivity].
      f_equal. f_equal. lia.
    + rewrite IH.
      destruct (String.eqb_spec k g) as [->|Hkg];
        destruct (String.eqb_spec (GameID d) g) as [Hdg|Hdg]; try reflexivity.
      congruence.
Qed.

Lemma ginfo_fold (g : string) (l : list Rating) (gs : list (string * Z * positive)) :
  ginfo g (fold_left (fun gs d => group_add d gs) l gs) =
    match ginfo g gs with
    | Some (sum, cnt) => Some (sum + game_sum g l, cnt + Z.of_nat (game_count g l))
    | None =>
        if Nat.eqb (game_count g l) 0 then None
        else Some (game_sum g l, Z.of_nat (game_count g l))
    end.
Proof.
  unfold game_sum, game_count. revert gs.
  induction l as [|d l IH]; intros gs; simpl.
  - destruct (ginfo g gs) as [[sum cnt]|]; [f_equal; f_equal; lia|reflexivity].
  - rewrite IH, ginfo_group_add.
    destruct (String.eqb (GameID d) g) eqn:Hd; simpl.
    + destruct (ginfo g gs) as [[sum cnt]|]; f_equal; f_equal; lia.
    + reflexivity.
Qed.

Lemma ginfo_groups (g : string) (l : list Rating) :
  ginfo g (fold_left (fun gs d => group_add d gs) l []) =
    if Nat.eqb (game_count g l) 0 then None
    else Some (game_sum g l, Z.of_nat (game_count g l)).
Proof. rewrite ginfo_fold. reflexivity. Qed.

Lemma gkeys_group_add (k : string) (d : Rating) (gs : list (string * Z * positive)) :
  In k (gkeys (group_add d gs)) <-> k = GameID d \/ In k (gkeys gs).
Proof.
  induction gs as [|[[k' sum] cnt] gs IH]; simpl; [intuition congruence|].
  destruct (String.eqb_spec k' (GameID d)) as [->|Hk]; simpl; [intuition congruence|].
  rewrite IH. intuition congruence.
Qed.

Lemma gkeys_group_add_nodup (d : Rating) (gs : list (string * Z * positive)) :
  NoDup (gkeys gs) -> NoDup (gkeys (group_add d gs)).
Proof.
  induction gs as [|[[k sum] cnt] gs IH]; simpl; intros Hnd.
  - constructor; [intros []|constructor].
  - inversion Hnd as [|? ? Hk Hnd']; subst.
    destruct (String.eqb_spec k (GameID d)) as [->|Hne]; simpl.
    + constructor; assumption.
    + constructor; [|apply IH; assumption].
      rewrite gkeys_group_add. intros [H|H]; [congruence|contradiction].
Qed.

Lemma gkeys_fold (k : string) (l : list Rating) (gs : list (string * Z * positive)) :
  In k (gkeys (fold_left (fun gs d => group_add d gs) l gs)) <->
  In k (map GameID l) \/ In k (gkeys gs).
Proof.
  revert gs. induction l as [|d l IH]; intros gs; simpl; [tauto|].
  rewrite IH, gkeys_group_add. intuition congruence.
Qed.

Lemma gkeys_fold_nodup (l : list Rating) (gs : list (string * Z * positive)) :
  NoDup (gkeys gs) -> NoDup (gkeys (fold_left (fun gs d => group_add d gs) l gs)).
Proof.
  revert gs. induction l as [|d l IH]; intros gs Hnd; simpl; [exact Hnd|].
  apply IH, gkeys_group_add_nodup, Hnd.
Qed.

Lemma ginfo_in (g : string) (sum : Z) (cnt : positive) (gs : list (string * Z * positive)) :
  NoDup (gkeys gs) -> In (g, sum, cnt) gs -> ginfo g gs = Some (sum, Zpos cnt).
Proof.
  induction gs as [|[[k s0] c0] gs IH]; simpl; [intros _ []|].
  intros Hnd [H|H].
  - injection H as -> -> ->. rewrite String.eqb_refl. reflexivity.
  - inversion Hnd as [|? ? Hk Hnd']; subst.
    destruct (String.eqb_spec k g) as [->|Hne].
    + exfalso. apply Hk. unfold gkeys. apply in_map_iff. exists (g, sum, cnt). auto.
    + apply IH; assumption.
Qed.

Lemma game_count_zero (g : string) (l : list Rating) :
  game_count g l = 0%nat <-> ~ In g (map GameID l).
Proof.
  unfold game_count. induction l as [|d l IH]; simpl; [tauto|].
  destruct (String.eqb_spec (GameID d) g) as [->|Hne]; simpl.
  - split; [discriminate|]. intros H; exfalso; apply H; auto.
  - rewrite IH. intuition.
Qed.

(** Insertion sort: permutation and order. *)
Lemma insert_desc_perm (x : string * Q) (l : list (string * Q)) :
  Permutation (insert_desc x l) (x :: l).
Proof.
  induction l as [|y l IH]; simpl; [reflexivity|].
  destruct (Qle_bool (snd y) (snd x)); [reflexivity|].
  rewrite IH. apply perm_swap.
Qed.

Lemma sort_desc_perm (l : list (string * Q)) : Permutation (sort_desc l) l.
Proof.
  induction l as [|x l IH]; simpl; [reflexivity|].
  rewrite insert_desc_perm. apply perm_skip, IH.
Qed.


Lemma insert_desc_sorted (x : string * Q) (l : list (string * Q)) :
  Sorted desc l -> Sorted desc (insert_desc x l).
Proof.
  induction 1 as [|y l Hl IH Hhd]; simpl.
  - repeat constructor.
  - destruct (Qle_bool (snd y) (snd x)) eqn:Hxy.
    + constructor; [constructor; assumption|].
      constructor. apply Qle_bool_iff. exact Hxy.
    + constructor; [exact IH|].
      assert (Hyx : desc y x).
      { unfold desc. apply Qlt_le_weak, Qnot_le_lt. intros H.
        apply Qle_bool_iff in H. congruence. }
      destruct l as [|z l]; simpl.
      * constructor. exact Hyx.
      * inversion Hhd; subst.
        destruct (Qle_bool (snd z) (snd x)); constructor; assumption.
Qed.

Lemma sort_desc_sorted (l : list (string * Q)) : Sorted desc (sort_desc l).
Proof.
  induction l as [|x l IH]; simpl; [constructor|]. apply insert_desc_sorted, IH.
Qed.

(** Binary64 rounding on the values the averages take. *)
Lemma round_ne_spec (n d : Z) :
  0 < d -> 2 * Z.abs (n - round_ne n d * d) <= d.
Proof.
  intros Hd. unfold round_ne. cbv zeta.
  pose proof (Z.div_mod n d ltac:(lia)) as Hn.
  pose proof (Z.mod_pos_bound n d Hd) as Hr.
  set (m := n / d) in *. set (r := n mod d) in *.
  destruct (Z.ltb_spec (2 * r) d) as [H1|H1].
  - replace (n - m * d) with r by lia. rewrite Z.abs_eq by lia. lia.
  - destruct (Z.ltb_spec d (2 * r)) as [H2|H2].
    + replace (n - (m + 1) * d) with (r - d) by lia. rewrite Z.abs_neq by lia. lia.
    + destruct (Z.even m).
      * replace (n - m * d) with r by lia. rewrite Z.abs_eq by lia. lia.
      * replace (n - (m + 1) * d) with (r - d) by lia. rewrite Z.abs_neq by lia. lia.
Qed.

Lemma round_ne_exact (n d : Z) :
  0 < d -> n mod d = 0 -> round_ne n d = n / d.
Proof.
  intros Hd H0. unfold round_ne. cbv zeta. rewrite H0.
  destruct (Z.ltb_spec (2 * 0) d); [reflexivity|lia].
Qed.

Lemma Qred_inject_Z (z : Z) : Qred (inject_Z z) = inject_Z z.
Proof.
  unfold Qred, inject_Z. cbn [Qnum Qden].
  pose proof (Z.ggcd_gcd z 1) as Hg. pose proof (Z.ggcd_correct_divisors z 1) as Hd.
  destruct (Z.ggcd z 1) as [g [a b]]. cbn [fst snd] in *.
  rewrite Z.gcd_1_r in Hg. subst g. destruct Hd as [Ha Hb].
  rewrite Z.mul_1_l in Ha, Hb. subst. reflexivity.
Qed.

Lemma Qred_eq_int (q : Q) (z : Z) : q == inject_Z z -> Qred q = inject_Z z.
Proof. intros H. rewrite (Qred_complete _ _ H). apply Qred_inject_Z. Qed.

Lemma pow2_pos (k : Z) : 0 <= k -> Zpos (Z.to_pos (2 ^ k)) = 2 ^ k.
Proof. intros Hk. apply Z2Pos.id. apply Z.pow_pos_nonneg; lia. Qed.

Lemma Q_int_of_mod (q : Q) :
  Qnum q mod Zpos (Qden q) = 0 -> q == inject_Z (Qnum q / Zpos (Qden q)).
Proof.
  intros H0. unfold Qeq. cbn [Qnum Qden inject_Z].
  pose proof (proj2 (Z.div_exact (Qnum q) (Zpos (Qden q)) ltac:(lia)) H0). lia.
Qed.

(** Integers of absolute value below [2 ^ 53] are doubles. *)
Lemma to_double_int (z : Z) :
  Z.abs z < 2 ^ 53 -> to_double (inject_Z z) = inject_Z z.
Proof.
  intros Hz. unfold to_double. cbn [Qnum Qden inject_Z].
  destruct (Z.eqb_spec z 0) as [->|Hz0]; [reflexivity|].
  assert (Hb : binade (Z.abs z) 1 = Z.log2 (Z.abs z)).
  { unfold binade. destruct (Z.leb_spec 1 (Z.abs z)); [|lia].
    rewrite Z.div_1_r. reflexivity. }
  assert (HL : Z.log2 (Z.abs z) < 53) by (apply Z.log2_lt_pow2; lia).
  assert (HL0 : 0 <= Z.log2 (Z.abs z)) by apply Z.log2_nonneg.
  rewrite Hb. apply Qred_eq_int. unfold scale.
  destruct (Z.leb_spec 0 (Z.log2 (Z.abs z) - 52)) as [Hu|Hu].
  - replace (Z.log2 (Z.abs z) - 52) with 0 by lia.
    rewrite Z.pow_0_r, Z.mul_1_l, Z.mul_1_r.
    rewrite round_ne_exact, Z.div_1_r; [reflexivity|lia|apply Z.mod_1_r].
  - rewrite round_ne_exact, Z.div_1_r; [|lia|apply Z.mod_1_r].
    unfold Qeq. cbn [Qnum Qden inject_Z]. rewrite pow2_pos by lia. ring.
Qed.

(** The [$avg] of integers below [2 ^ 53] is the double nearest to
    their exact mean. *)
Lemma avg_double_div (n : Z) (cnt : positive) :
  Z.abs n < 2 ^ 53 -> Zpos cnt < 2 ^ 53 -> avg_double n cnt = to_double (n # cnt).
Proof.
  intros Hn Hc. unfold avg_double.
  rewrite (to_double_int n Hn), (to_double_int (Zpos cnt)) by lia.
  unfold Qdiv, Qinv, Qmult, inject_Z. cbn [Qnum Qden].
  rewrite Z.mul_1_r. reflexivity.
Qed.

(** A mean between 1 and 5 of fewer than [2 ^ 50] integers: its double
    is the mean itself when that is an integer, and otherwise is no
    integer (the rounding error stays below the distance [1 / cnt] to
    the nearest integer). *)
Lemma to_double_mean (n : Z) (cnt : positive) :
  Zpos cnt < 2 ^ 50 -> Zpos cnt <= n <= 5 * Zpos cnt ->
  (n mod Zpos cnt = 0 -> to_double (n # cnt) = inject_Z (n / Zpos cnt)) /\
  (forall i, to_double (n # cnt) == inject_Z i -> n = i * Zpos cnt).
Proof.
  intros Hc Hn.
  assert (Hq1 : 1 <= n / Zpos cnt) by (apply Z.div_le_lower_bound; lia).
  assert (Hq5 : n / Zpos cnt <= 5) by (apply Z.div_le_upper_bound; lia).
  set (L := Z.log2 (n / Zpos cnt)).
  assert (HL0 : 0 <= L) by apply Z.log2_nonneg.
  assert (HL2 : L <= 2).
  { unfold L. change 2 with (Z.log2 5). apply Z.log2_le_mono. exact Hq5. }
  set (k := 52 - L).
  assert (Hk : 50 <= k) by (unfold k; lia).
  assert (Hpk : 2 ^ 50 <= 2 ^ k) by (apply Z.pow_le_mono_r; lia).
  assert (Hd : to_double (n # cnt) =
               Qred (round_ne (n * 2 ^ k) (Zpos cnt) # Z.to_pos (2 ^ k))).
  { unfold to_double. cbn [Qnum Qden].
    destruct (Z.eqb_spec n 0) as [H0|_]; [lia|].
    rewrite (Z.abs_eq n) by lia.
    replace (binade n (Zpos cnt)) with L
      by (unfold binade, L; destruct (Z.leb_spec (Zpos cnt) n); [reflexivity|lia]).
    unfold scale. destruct (Z.leb_spec 0 (L - 52)) as [Hu|Hu]; [lia|].
    replace (- (L - 52)) with k by (unfold k; lia). reflexivity. }
  split.
  - intros H0. rewrite Hd. apply Qred_eq_int.
    pose proof (proj2 (Z.div_exact n (Zpos cnt) ltac:(lia)) H0) as Hnj.
    set (j := n / Zpos cnt) in *.
    rewrite round_ne_exact; [|lia|].
    + replace (n * 2 ^ k) with (j * 2 ^ k * Zpos cnt) by lia.
      rewrite Z.div_mul by lia.
      unfold Qeq. cbn [Qnum Qden inject_Z]. rewrite pow2_pos by lia. ring.
    + replace (n * 2 ^ k) with (j * 2 ^ k * Zpos cnt) by lia. apply Z.mod_mul. lia.
  - intros i Hi. rewrite Hd in Hi.
    pose proof (Qeq_trans _ _ _ (Qeq_sym _ _ (Qred_correct _)) Hi) as Hm.
    unfold Qeq in Hm. cbn [Qnum Qden inject_Z] in Hm. rewrite pow2_pos in Hm by lia.
    pose proof (round_ne_spec (n * 2 ^ k) (Zpos cnt) ltac:(lia)) as Hr.
    replace (n * 2 ^ k - round_ne (n * 2 ^ k) (Zpos cnt) * Zpos cnt)
      with (2 ^ k * (n - i * Zpos cnt)) in Hr by lia.
    rewrite Z.abs_mul, (Z.abs_eq (2 ^ k)) in Hr by lia.
    nia.
Qed.

(** A decoded average of valid ratings (fewer than [2 ^ 50] of them):
    the exact mean when it is an integer, the truncation error
    otherwise. *)
Lemma decode_mean (g : string) (n : Z) (cnt : positive) :
  Zpos cnt < 2 ^ 50 -> Zpos cnt <= n <= 5 * Zpos cnt ->
  decode_avg_doc (g, avg_double n cnt) =
    if Z.eqb (n mod Zpos cnt) 0 then Ok (mkRating "" g (n / Zpos cnt)) else Err ErrTruncate.
Proof.
  intros Hc Hn. rewrite avg_double_div by lia.
  destruct (to_double_mean n cnt Hc Hn) as [H1 H2].
  assert (Hq5 : n / Zpos cnt <= 5) by (apply Z.div_le_upper_bound; lia).
  destruct (Z.eqb_spec (n mod Zpos cnt) 0) as [H0|H0].
  - rewrite (H1 H0). unfold decode_avg_doc. cbn [Qnum Qden inject_Z].
    rewrite Z.mod_1_r, Z.div_1_r. cbn [Z.eqb negb].
    unfold int_max. destruct (Z.ltb_spec (2 ^ 63 - 1 + 1) (n / Zpos cnt)); [lia|].
    destruct (Z.eqb_spec (n / Zpos cnt) (2 ^ 63 - 1 + 1)); [lia|reflexivity].
  - unfold decode_avg_doc.
    destruct (Z.eqb_spec (Qnum (to_double (n # cnt)) mod Zpos (Qden (to_double (n # cnt)))) 0)
      as [Hm|Hm]; [|reflexivity].
    exfalso. apply H0. rewrite (H2 _ (Q_int_of_mod _ Hm)). apply Z.mod_mul. lia.
Qed.

Lemma game_bounds (g : string) (l : list Rating) :
  docs_valid l ->
  Z.of_nat (game_count g l) <= game_sum g l <= 5 * Z.of_nat (game_count g l).
Proof.
  unfold docs_valid, game_sum, game_count. induction 1 as [|d l Hd _ IH]; simpl; [lia|].
  destruct (String.eqb (GameID d) g); simpl; [|exact IH].
  unfold valid in Hd. apply andb_true_iff in Hd as [H1 H2].
  apply Z.leb_le in H1. apply Z.leb_le in H2. lia.
Qed.

Lemma game_count_le (g : string) (l : list Rating) : (game_count g l <= length l)%nat.
Proof.
  unfold game_count. induction l as [|d l IH]; simpl; [lia|].
  destruct (String.eqb _ _); simpl; lia.
Qed.

Lemma decode_avg_doc_ok (x : string * Q) (r : Rating) :
  decode_avg_doc x = Ok r -> GameID r = fst x /\ UserID r = "".
Proof.
  destruct x as [g q]. unfold decode_avg_doc. cbv zeta.
  destruct (negb _); [discriminate|].
  destruct (_ <? _); [discriminate|].
  destruct (Z.eqb _ _); intros H; injection H as <-; simpl; auto.
Qed.

Lemma cursor_all_ok (l : list (string * Q)) (rs : list Rating) :
  cursor_all l = Ok rs -> Forall2 (fun x r => decode_avg_doc x = Ok r) l rs.
Proof.
  revert rs. induction l as [|x l IH]; simpl; intros rs H.
  - injection H as <-. constructor.
  - destruct (decode_avg_doc x) as [r|e] eqn:Hx; [|discriminate].
    destruct (cursor_all l) as [rs'|e] eqn:Hl; [|discriminate].
    injection H as <-. constructor; [exact Hx|apply IH; reflexivity].
Qed.

(** [cur.All] reports the error of the first document that fails. *)
Lemma cursor_all_err_in (l : list (string * Q)) (e : error) :
  cursor_all l = Err e -> exists x, In x l /\ decode_avg_doc x = Err e.
Proof.
  induction l as [|x l IH]; simpl; [discriminate|].
  destruct (decode_avg_doc x) as [r|e'] eqn:Hx.
  - destruct (cursor_all l) as [rs|e'']; [discriminate|]. intros H; injection H as <-.
    destruct (IH eq_refl) as (y & Hy & Hd). eauto.
  - intros H; injection H as <-. eauto.
Qed.

Lemma cursor_all_some_err (l : list (string * Q)) (x : string * Q) (e : error) :
  In x l -> decode_avg_doc x = Err e -> exists e', cursor_all l = Err e'.
Proof.
  intros Hx Hd. destruct (cursor_all l) as [rs|e'] eqn:Hc; [|eauto].
  apply cursor_all_ok in Hc. exfalso. revert Hx.
  induction Hc as [|y r l rs Hyr _ IH]; [intros []|].
  intros [<-|Hx]; [congruence|auto].
Qed.

Lemma Forall2_map_game (l : list (string * Q)) (rs : list Rating) :
  Forall2 (fun x r => decode_avg_doc x = Ok r) l rs -> map GameID rs = map fst l.
Proof.
  induction 1 as [|x r l rs Hxr _ IH]; simpl; [reflexivity|].
  rewrite IH. f_equal. apply (decode_avg_doc_ok x r Hxr).
Qed.

Lemma Forall2_in_r (l : list (string * Q)) (rs : list Rating) (r : Rating) :
  Forall2 (fun x r => decode_avg_doc x = Ok r) l rs -> In r rs ->
  exists x, In x l /\ decode_avg_doc x = Ok r.
Proof.
  induction 1 as [|x r' l rs Hxr _ IH]; simpl; [intros []|].
  intros [<-|H]; [eauto|]. destruct (IH H) as (y & Hy & Hd). eauto.
Qed.

Lemma Forall2_in_impl {A B : Type} (P R : A -> B -> Prop) (l : list A) (rs : list B) :
  Forall2 P l rs -> (forall x r, In x l -> P x r -> R x r) -> Forall2 R l rs.
Proof.
  induction 1 as [|x r l rs Hxr _ IH]; intros Himp; constructor.
  - apply Himp; [left; reflexivity|exact Hxr].
  - apply IH. intros y r' Hy. apply Himp. right. exact Hy.
Qed.

Lemma desc_rating (x y : string * Q) (rx ry : Rating) :
  snd x = inject_Z (rating rx) -> snd y = inject_Z (rating ry) -> desc x y ->
  rating ry <= rating rx.
Proof.
  intros Hx Hy Hd. unfold desc in Hd. rewrite Hx, Hy in Hd.
  unfold Qle in Hd. cbn [Qnum Qden inject_Z] in Hd. lia.
Qed.

Lemma sorted_decoded (l : list (string * Q)) (rs : list Rating) :
  Forall2 (fun x r => snd x = inject_Z (rating r)) l rs -> Sorted desc l ->
  Sorted (fun a b => rating b <= rating a) rs.
Proof.
  induction 1 as [|x r l rs Hxr HF IH]; intros Hs; [constructor|].
  inversion Hs as [|? ? Hs' Hhd]; subst. constructor; [apply IH, Hs'|].
  destruct HF as [|y r' l' rs' Hyr' _]; constructor.
  inversion Hhd; subst. eapply desc_rating; eauto.
Qed.

Lemma in_gkeys (k : string) (gs : list (string * Z * positive)) :
  In k (gkeys gs) <-> exists sum cnt, In (k, sum, cnt) gs.
Proof.
  unfold gkeys. rewrite in_map_iff. split.
  - intros ([[k' sum] cnt] & Hk & Hin). subst. eauto.
  - intros (sum & cnt & Hin). exists (k, sum, cnt). auto.
Qed.

Lemma map_fst_group_avg (l : list Rating) :
  map fst (group_avg l) = gkeys (fold_left (fun gs d => group_add d gs) l []).
Proof.
  unfold group_avg, gkeys. rewrite map_map.
  apply map_ext. intros [[k sum] cnt]. reflexivity.
Qed.

Lemma in_group_avg (x : string * Q) (l : list Rating) :
  In x (group_avg l) <->
  exists g sum cnt, In (g, sum, cnt) (fold_left (fun gs d => group_add d gs) l []) /\
                    x = (g, avg_double sum cnt).
Proof.
  unfold group_avg. rewrite in_map_iff. split.
  - intros ([[g sum] cnt] & <- & Hin). eauto.
  - intros (g & sum & cnt & Hin & ->). exists (g, sum, cnt). auto.
Qed.

(** A group of the accumulator is the sum and count of one stored game. *)
Lemma group_entry (l : list Rating) (g : string) (sum : Z) (cnt : positive) :
  In (g, sum, cnt) (fold_left (fun gs d => group_add d gs) l []) ->
  In g (map GameID l) /\ sum = game_sum g l /\ Zpos cnt = Z.of_nat (game_count g l).
Proof.
  intros Hin.
  assert (Hnd : NoDup (gkeys (fold_left (fun gs d => group_add d gs) l [])))
    by (apply gkeys_fold_nodup; constructor).
  assert (Hk : In g (gkeys (fold_left (fun gs d => group_add d gs) l [])))
    by (apply in_gkeys; eauto).
  apply gkeys_fold in Hk as [Hk|[]].
  pose proof (ginfo_in g sum cnt _ Hnd Hin) as Hg. rewrite ginfo_groups in Hg.
  destruct (Nat.eqb (game_count g l) 0); [discriminate|].
  injection Hg as H1 H2. auto.
Qed.

(** The decoded average of a group of valid ratings. *)
Lemma group_decode (l : list Rating) (g : string) (sum : Z) (cnt : positive) :
  docs_valid l -> Z.of_nat (length l) < 2 ^ 50 ->
  In (g, sum, cnt) (fold_left (fun gs d => group_add d gs) l []) ->
  decode_avg_doc (g, avg_double sum cnt) =
    if Z.eqb (sum mod Zpos cnt) 0 then Ok (mkRating "" g (sum / Zpos cnt)) else Err ErrTruncate.
Proof.
  intros Hv Hl Hin. destruct (group_entry _ _ _ _ Hin) as (_ & Hs & Hc).
  pose proof (game_bounds g l Hv). pose proof (game_count_le g l).
  apply decode_mean; lia.
Qed.

Lemma group_mean (l : list Rating) (g : string) (sum : Z) (cnt : positive) (r : Rating) :
  docs_valid l -> Z.of_nat (length l) < 2 ^ 50 ->
  In (g, sum, cnt) (fold_left (fun gs d => group_add d gs) l []) ->
  decode_avg_doc (g, avg_double sum cnt) = Ok r ->
  avg_double sum cnt = inject_Z (rating r) /\ UserID r = "" /\ GameID r = g /\
  rating r * Zpos cnt = sum.
Proof.
  intros Hv Hl Hin Hd. rewrite (group_decode l g sum cnt Hv Hl Hin) in Hd.
  destruct (group_entry _ _ _ _ Hin) as (_ & Hs & Hc).
  pose proof (game_bounds g l Hv). pose proof (game_count_le g l).
  destruct (Z.eqb_spec (sum mod Zpos cnt) 0) as [Hz|Hz]; [|discriminate].
  injection Hd as <-. cbn [rating UserID GameID].
  rewrite avg_double_div by lia.
  destruct (to_double_mean sum cnt) as [H1 _]; [lia|lia|].
  split; [exact (H1 Hz)|]. split; [reflexivity|]. split; [reflexivity|].
  rewrite Z.mul_comm. symmetry. apply Z.div_exact; [lia|exact Hz].
Qed.

Lemma GetAvgRatings_result (s : db) :
  db_up s = true ->
  GetAvgRatings s = (Some (cursor_all (sort_desc (group_avg (docs s)))),
                     mkDb (docs s) (db_up s) (OpAggregate :: ops s)).
Proof.
  intros Hup. unfold GetAvgRatings, bind, issue, get_db, ret. simpl. rewrite Hup. reflexivity.
Qed.

(** X1: on a store whose documents all hold valid ratings (as [PutRating]
    keeps it) and that holds fewer than [2 ^ 50] documents, when
    [GetAvgRatings] succeeds its list is sorted by non-increasing
    rating, has one entry per distinct stored game and no other, each
    with an empty [UserID] and a [rating] that is the exact mean of the
    game's stored ratings (rating * count = sum). *)
Theorem GetAvgRatings_ok_sorted_means (s s' : db) (rs : list Rating) :
  docs_valid (docs s) -> Z.of_nat (length (docs s)) < 2 ^ 50 ->
  GetAvgRatings s = (Some (Ok rs), s') ->
  Sorted (fun a b => rating b <= rating a) rs /\
  NoDup (map GameID rs) /\
  (forall g, In g (map GameID rs) <-> In g (map GameID (docs s))) /\
  (forall r, In r rs ->
     UserID r = "" /\
     rating r * Z.of_nat (game_count (GameID r) (docs s)) = game_sum (GameID r) (docs s)).
Proof.
  intros Hv Hl H.
  destruct (db_up s) eqn:Hup.
  2:{ unfold GetAvgRatings, bind, issue, get_db, ret in H. simpl in H. rewrite Hup in H. discriminate. }
  rewrite GetAvgRatings_result in H by exact Hup. injection H as Hc _.
  apply cursor_all_ok in Hc.
  assert (Hperm := sort_desc_perm (group_avg (docs s))).
  assert (Hkeys : map GameID rs = map fst (sort_desc (group_avg (docs s))))
    by (apply Forall2_map_game; exact Hc).
  assert (Hgrp : forall x r, In x (sort_desc (group_avg (docs s))) -> decode_avg_doc x = Ok r ->
            snd x = inject_Z (rating r) /\ UserID r = "" /\
            rating r * Z.of_nat (game_count (GameID r) (docs s)) = game_sum (GameID r) (docs s)).
  { intros x r Hx Hd. apply (Permutation_in _ Hperm) in Hx.
    apply in_group_avg in Hx as (g & sum & cnt & Hin & ->).
    destruct (group_entry _ _ _ _ Hin) as (_ & Hsum & Hcnt).
    destruct (group_mean (docs s) g sum cnt r Hv Hl Hin Hd) as (Hq & Hu & Hg & Hm).
    cbn [snd]. rewrite Hg, <- Hcnt, <- Hsum. auto. }
  split; [|split; [|split]].
  - eapply sorted_decoded; [|apply sort_desc_sorted].
    eapply Forall2_in_impl; [exact Hc|]. intros x r Hx Hd. apply (Hgrp x r Hx Hd).
  - rewrite Hkeys. apply (Permutation_NoDup (Permutation_sym (Permutation_map fst Hperm))).
    rewrite map_fst_group_avg. apply gkeys_fold_nodup. constructor.
  - intros g. rewrite Hkeys.
    split; intros Hg.
    + apply (Permutation_in _ (Permutation_map fst Hperm)) in Hg.
      rewrite map_fst_group_avg in Hg. apply gkeys_fold in Hg as [Hg|[]]. exact Hg.
    + apply (Permutation_in _ (Permutation_sym (Permutation_map fst Hperm))).
      rewrite map_fst_group_avg. apply gkeys_fold. left. exact Hg.
  - intros r Hr.
    destruct (Forall2_in_r _ _ _ Hc Hr) as (x & Hx & Hd).
    destruct (Hgrp x r Hx Hd) as (_ & Hu & Hm). auto.
Qed.

(** X2: on a reachable store whose documents all hold valid ratings and
    that holds fewer than [2 ^ 50] documents, [GetAvgRatings] fails with
    the truncation error exactly when some stored game has a mean that
    is not an integer (its sum is not a multiple of its count). *)
Theorem GetAvgRatings_truncates (s : db) :
  db_up s = true -> docs_valid (docs s) -> Z.of_nat (length (docs s)) < 2 ^ 50 ->
  (fst (GetAvgRatings s) = Some (Err ErrTruncate) <->
   exists g, In g (map GameID (docs s)) /\
             game_sum g (docs s) mod Z.of_nat (game_count g (docs s)) <> 0).
Proof.
  intros Hup Hv Hl. rewrite GetAvgRatings_result by exact Hup. simpl fst.
  assert (Hperm := sort_desc_perm (group_avg (docs s))).
  assert (Hgrp : forall x e, In x (sort_desc (group_avg (docs s))) -> decode_avg_doc x = Err e ->
            e = ErrTruncate /\
            exists g, In g (map GameID (docs s)) /\ fst x = g /\
                      game_sum g (docs s) mod Z.of_nat (game_count g (docs s)) <> 0).
  { intros x e Hx Hd. apply (Permutation_in _ Hperm) in Hx.
    apply in_group_avg in Hx as (g & sum & cnt & Hin & ->).
    destruct (group_entry _ _ _ _ Hin) as (Hg & Hsum & Hcnt).
    rewrite (group_decode _ g sum cnt Hv Hl Hin) in Hd.
    destruct (Z.eqb_spec (sum mod Zpos cnt) 0) as [H0|H0]; [discriminate|].
    injection Hd as <-. split; [reflexivity|].
    exists g. split; [exact Hg|]. split; [reflexivity|]. rewrite <- Hsum, <- Hcnt. exact H0. }
  split.
  - intros H. injection H as H. apply cursor_all_err_in in H as (x & Hx & Hd).
    destruct (Hgrp x _ Hx Hd) as (_ & g & Hg & _ & Hm). eauto.
  - intros (g & Hg & Hm).
    assert (Hk : In g (gkeys (fold_left (fun gs d => group_add d gs) (docs s) [])))
      by (apply gkeys_fold; left; exact Hg).
    apply in_gkeys in Hk as (sum & cnt & Hin).
    destruct (group_entry _ _ _ _ Hin) as (_ & Hsum & Hcnt).
    assert (Hx : In (g, avg_double sum cnt) (sort_desc (group_avg (docs s)))).
    { apply (Permutation_in _ (Permutation_sym Hperm)). apply in_group_avg. eauto. }
    assert (Hd : decode_avg_doc (g, avg_double sum cnt) = Err ErrTruncate).
    { rewrite (group_decode _ g sum cnt Hv Hl Hin).
      destruct (Z.eqb_spec (sum mod Zpos cnt) 0) as [H0|H0]; [|reflexivity].
      exfalso. apply Hm. rewrite <- Hsum, <- Hcnt. exact H0. }
    destruct (cursor_all_some_err _ _ _ Hx Hd) as (e & He).
    rewrite He. f_equal. f_equal.
    apply cursor_all_err_in in He as (y & Hy & Hye).
    exact (proj1 (Hgrp y e Hy Hye)).
Qed.

(* ------------------------------------------------------------------ *)
(** ** Further properties: repository operations *)

Lemma GetAvgRatings_eq (s : db) :
  GetAvgRatings s =
    (Some (if db_up s then cursor_all (sort_desc (group_avg (docs s))) else Err ErrStore),
     mkDb (docs s) (db_up s) (OpAggregate :: ops s)).
Proof.
  unfold GetAvgRatings, bind, issue, get_db, ret. simpl. destruct (db_up s); reflexivity.
Qed.

Lemma GetRating_eq (g u : string) (s : db) :
  GetRating g u s =
    (Some (if db_up s
           then Ok (match find (matches g u) (docs s) with
                    | Some d => d
                    | None => mkRating "" g 0
                    end)
           else Err ErrStore),
     mkDb (docs s) (db_up s) (OpFindOne g u :: ops s)).
Proof.
  unfold GetRating, find_one, bind, issue, get_db, ret. simpl.
  destruct (db_up s); [destruct (find _ _)|]; reflexivity.
Qed.

Lemma PutRating_eq (r : Rating) (s : db) :
  PutRating r s =
    if valid r then
      (Some (if db_up s then Ok tt else Err ErrStore),
       mkDb (if db_up s then upsert (GameID r) (UserID r) r (docs s) else docs s)
            (db_up s) (OpReplaceOne r :: ops s))
    else (Some (Err ErrInvalid), s).
Proof.
  unfold PutRating, replace_one, bind, issue, get_db, set_docs, ret.
  destruct (valid r); simpl; [|reflexivity]. destruct (db_up s); reflexivity.
Qed.

Lemma in_upsert (g u : string) (r x : Rating) (l : list Rating) :
  In x (upsert g u r l) -> x = r \/ In x l.
Proof.
  unfold upsert. destruct (replace_first g u r l) as [l'|] eqn:Hrep.
  - revert l' Hrep. induction l as [|d l IH]; simpl; intros l' Hrep; [discriminate|].
    destruct (matches g u d).
    + injection Hrep as <-. intros [->|Hx]; auto.
    + destruct (replace_first g u r l) as [l0|]; simpl in Hrep; [|discriminate].
      injection Hrep as <-. intros [->|Hx]; [auto|]. destruct (IH l0 eq_refl Hx); auto.
  - intros Hx. apply in_app_or in Hx as [Hx|[->|[]]]; auto.
Qed.

Lemma find_upsert_other (g u g' u' : string) (r : Rating) (l : list Rating) :
  matches g u r = true -> matches g' u' r = false ->
  find (matches g' u') (upsert g u r l) = find (matches g' u') l.
Proof.
  intros Hr Hr'. unfold upsert. destruct (replace_first g u r l) as [l'|] eqn:Hrep.
  - revert l' Hrep. induction l as [|d l IH]; simpl; intros l' Hrep; [discriminate|].
    destruct (matches g u d) eqn:Hd.
    + injection Hrep as <-. simpl. rewrite Hr'.
      rewrite (matches_same_key g u g' u' d r Hd Hr), Hr'. reflexivity.
    + destruct (replace_first g u r l) as [l0|]; simpl in Hrep; [|discriminate].
      injection Hrep as <-. simpl. rewrite (IH l0 eq_refl). reflexivity.
  - clear Hrep. induction l as [|d l IH]; simpl; [rewrite Hr'; reflexivity|].
    destruct (matches g' u' d); [reflexivity|exact IH].
Qed.

Lemma upsert_length (g u : string) (r : Rating) (l : list Rating) :
  length (upsert g u r l) = (length l + if existsb (matches g u) l then 0 else 1)%nat.
Proof.
  unfold upsert. destruct (replace_first g u r l) as [l'|] eqn:Hrep.
  - revert l' Hrep. induction l as [|d l IH]; simpl; intros l' Hrep; [discriminate|].
    destruct (matches g u d).
    + injection Hrep as <-. simpl. lia.
    + destruct (replace_first g u r l) as [l0|]; simpl in Hrep; [|discriminate].
      injection Hrep as <-. simpl. rewrite (IH l0 eq_refl). reflexivity.
  - assert (He : existsb (matches g u) l = false).
    { apply replace_first_none in Hrep. unfold count_key in Hrep.
      destruct (existsb (matches g u) l) eqn:He; [|reflexivity].
      apply existsb_exists in He as (x & Hx & Hm).
      assert (In x (filter (matches g u) l)) by (apply filter_In; auto).
      destruct (filter (matches g u) l); [contradiction|discriminate]. }
    rewrite He, length_app. simpl. lia.
Qed.

Lemma matches_false_iff (g u : string) (r : Rating) :
  matches g u r = false <-> ~ (g = GameID r /\ u = UserID r).
Proof.
  unfold matches. rewrite andb_false_iff, !String.eqb_neq.
  destruct (string_dec g (GameID r)); destruct (string_dec u (UserID r)); intuition congruence.
Qed.

Lemma find_matches (g u : string) (l : list Rating) (d : Rating) :
  find (matches g u) l = Some d -> In d l /\ GameID d = g /\ UserID d = u.
Proof.
  intros H. destruct (find_some _ _ H) as [Hin Hm].
  destruct (matches_key_eq g u d Hm) as [-> ->]. auto.
Qed.

(* ------------------------------------------------------------------ *)
(** ** Further properties: the router built by [Initialize] *)

Lemma route_initialized (uri : string) (r : request) :
  route (initialized_router uri) r =
    match path r with
    | String c id =>
        if Ascii.eqb c "/"%char then
          if String.eqb id "" then
            (if String.eqb "GET" (method r) then RMatch HgetRatings [] else RMethodMismatch)
          else if no_slash id then
            (if String.eqb "GET" (method r) then RMatch HgetRating [("id", id)]
             else if String.eqb "PUT" (method r) then RMatch HputRating [("id", id)]
             else RMethodMismatch)
          else RNotFound
        else RNotFound
    | EmptyString => RNotFound
    end.
Proof.
  destruct r as [m p hdrs b ctx vs]. unfold route, initialized_router.
  cbn [find_route routes method path].
  destruct p as [|c id]; [reflexivity|].
  assert (Hroot : String.eqb (String c id) "/" = Ascii.eqb c "/"%char && String.eqb id "")
    by reflexivity.
  unfold match_pattern. rewrite Hroot.
  destruct (Ascii.eqb c "/"%char); cbn [andb negb existsb];
    [|destruct (String.eqb "GET" m); reflexivity].
  destruct (String.eqb id "") eqn:He; cbn [andb negb].
  - destruct (String.eqb "GET" m); reflexivity.
  - destruct (no_slash id); [|reflexivity].
    destruct (String.eqb "GET" m); [reflexivity|].
    destruct (String.eqb "PUT" m); reflexivity.
Qed.

Lemma route_put_inv (uri : string) (r : request) (vs : list (string * string)) :
  route (initialized_router uri) r = RMatch HputRating vs ->
  exists id, method r = "PUT" /\ path r = String "/"%char id /\ segment_ok id = true /\
             vs = [("id", id)].
Proof.
  rewrite route_initialized. destruct (path r) as [|c id] eqn:Hpath; [discriminate|].
  destruct (Ascii.eqb c "/"%char) eqn:Hc; [|discriminate].
  apply Ascii.eqb_eq in Hc. subst c.
  destruct (String.eqb id "") eqn:He; [destruct (String.eqb "GET" (method r)); discriminate|].
  destruct (no_slash id) eqn:Hn; [|discriminate].
  destruct (String.eqb "GET" (method r)); [discriminate|].
  destruct (String.eqb "PUT" (method r)) eqn:Hp; [|discriminate].
  intros H. injection H as <-. apply String.eqb_eq in Hp.
  exists id. repeat split; auto. unfold segment_ok. rewrite He, Hn. reflexivity.
Qed.

Lemma route_root (uri : string) (hdrs : list (string * string)) (b : body)
      (ctx : list (ctx_key * ctx_value)) (vs : list (string * string)) :
  route (initialized_router uri) (mkRequest "GET" "/" hdrs b ctx vs) = RMatch HgetRatings [].
Proof. rewrite route_initialized. reflexivity. Qed.

Lemma snd_finish (X : option writer * db) :
  snd (let '(o, s') := X in (option_map finish o, s')) = snd X.
Proof. destruct X; reflexivity. Qed.

Lemma put_input_ids (b : body) (g u : string) :
  GameID (put_input b g u) = g /\ UserID (put_input b g u) = u.
Proof. unfold put_input. destruct (decode_rating b zero_rating). split; reflexivity. Qed.

Lemma getRatings_eq (a : App) (r : request) (w : writer) (s : db) :
  getRatings a r w s =
    (Some (match (if db_up s then cursor_all (sort_desc (group_avg (docs s))) else Err ErrStore) with
           | Ok rs => write (CJson (JArr (map encode_rating rs))) w
           | Err _ => http_error "Error" 500 w
           end),
     mkDb (docs s) (db_up s) (OpAggregate :: ops s)).
Proof.
  unfold getRatings, bind, ret. rewrite GetAvgRatings_eq.
  destruct (if db_up s then _ else _) as [rs|e]; [destruct rs; reflexivity|reflexivity].
Qed.

Lemma getRating_with_user (a : App) (r : request) (w : writer) (s : db) (u : User) :
  ctx_lookup (KString (requestUserKey a)) (req_ctx r) = Some (VUser u) ->
  getRating a r w s =
    (Some (if db_up s
           then write (CJson (encode_rating
                  (match find (matches (var_lookup "id" (req_vars r)) (ID u)) (docs s) with
                   | Some d => d
                   | None => mkRating "" (var_lookup "id" (req_vars r)) 0
                   end))) w
           else http_error "Error" 500 w),
     mkDb (docs s) (db_up s) (OpFindOne (var_lookup "id" (req_vars r)) (ID u) :: ops s)).
Proof.
  intros Hu. unfold getRating, request_user, bind, ret. rewrite Hu, GetRating_eq.
  destruct (db_up s); reflexivity.
Qed.

Lemma putRating_with_user (a : App) (r : request) (w : writer) (s : db) (u : User) :
  ctx_lookup (KString (requestUserKey a)) (req_ctx r) = Some (VUser u) ->
  putRating a r w s =
    let rt := put_input (req_body r) (var_lookup "id" (req_vars r)) (ID u) in
    if valid rt then
      (if db_up s
       then getRating a r w (mkDb (upsert (GameID rt) (UserID rt) rt (docs s)) true (OpReplaceOne rt :: ops s))
       else (Some (http_error "Error" 400 w), mkDb (docs s) false (OpReplaceOne rt :: ops s)))
    else (Some (http_error "Error" 400 w), s).
Proof.
  intros Hu. cbv zeta. unfold putRating, request_user, bind, ret. rewrite Hu. cbv beta iota zeta.
  rewrite PutRating_eq.
  destruct (valid (put_input (req_body r) (var_lookup "id" (req_vars r)) (ID u))); [|reflexivity].
  destruct (db_up s); reflexivity.
Qed.

Lemma getRating_docs (a : App) (r : request) (w : writer) (s : db) :
  docs (snd (getRating a r w s)) = docs s.
Proof.
  unfold getRating, request_user, bind, ret, panic.
  destruct (ctx_lookup _ _) as [[u|n]|]; try reflexivity.
  rewrite GetRating_eq. destruct (db_up s); reflexivity.
Qed.

(* ------------------------------------------------------------------ *)
(** ** Further properties: statements *)

(** X3: on a reachable store, [GetAvgRatings] returns the empty list
    exactly when no document is stored. *)
Theorem GetAvgRatings_empty (s : db) :
  db_up s = true ->
  (fst (GetAvgRatings s) = Some (Ok []) <-> docs s = []).
Proof.
  intros Hup. rewrite GetAvgRatings_eq, Hup. simpl fst.
  split.
  - intros H. injection H as H. apply cursor_all_ok, Forall2_map_game in H.
    destruct (docs s) as [|d l] eqn:Hd; [reflexivity|exfalso].
    assert (Hk : In (GameID d) (map fst (sort_desc (group_avg (d :: l))))).
    { apply (Permutation_in _ (Permutation_sym (Permutation_map fst (sort_desc_perm _)))).
      rewrite map_fst_group_avg. apply gkeys_fold. left. left. reflexivity. }
    rewrite <- H in Hk. destruct Hk.
  - intros Hd. rewrite Hd. reflexivity.
Qed.


(** X8: serving a request changes the stored documents only for an
    authenticated [PUT /{id}] whose rating is valid on a reachable store,
    and then only by the upsert of that rating under the key formed by the
    route's [id] and the authenticated user's [ID]; every other request
    leaves the documents as they were. *)
Theorem serve_writes_only_put
    (ver : string -> string -> verifier_reply) (uri : string) (a0 a : App) (s0 s1 : db)
    (r : request) (s : db) :
  Initialize uri a0 s0 = (Some (Ok a), s1) ->
  docs (snd (serve ver a r s)) = docs s \/
  exists id u,
    method r = "PUT" /\ path r = String "/"%char id /\ segment_ok id = true /\
    AuthenticateUser ver uri (header_get "Authorization" (req_header r)) = Some u /\
    valid (put_input (req_body r) id (ID u)) = true /\ db_up s = true /\
    docs (snd (serve ver a r s)) = upsert id (ID u) (put_input (req_body r) id (ID u)) (docs s).
Proof.
  intros HI. pose proof (Initialize_ok _ _ _ _ _ HI) as Ha.
  destruct (String.eqb (clean_path (path r)) (path r)) eqn:Hcl.
  2: { left. subst a. unfold serve. cbn [router]. unfold router_serve. rewrite Hcl. reflexivity. }
  apply String.eqb_eq in Hcl.
  destruct (route (initialized_router uri) r) as [h vs| |] eqn:HR.
  2,3: left; subst a; unfold serve; cbn [router]; unfold router_serve;
       rewrite Hcl, String.eqb_refl; cbn [negb]; rewrite HR; reflexivity.
  rewrite (serve_routed ver uri a0 a s0 s1 r h vs s HI Hcl HR).
  destruct (AuthenticateUser ver uri (header_get "Authorization" (req_header r))) as [u|] eqn:Hau;
    [|left; reflexivity].
  rewrite snd_finish. subst a.
  set (r' := with_value (with_vars r vs) (KString "user") (VUser u)).
  set (w := w_add "Content-Type" "application/json" empty_writer).
  destruct h; cbn [run_handler].
  - left. rewrite getRatings_eq. reflexivity.
  - left. apply getRating_docs.
  - destruct (route_put_inv uri r vs HR) as (id & Hm & Hp & Hid & ->).
    rewrite (putRating_with_user _ r' w s u) by reflexivity. cbv zeta.
    change (var_lookup "id" (req_vars r')) with id. change (req_body r') with (req_body r).
    destruct (put_input_ids (req_body r) id (ID u)) as [Hg Hu]. rewrite Hg, Hu.
    destruct (valid (put_input (req_body r) id (ID u))) eqn:Hv; [|left; reflexivity].
    destruct (db_up s) eqn:Hup; [|left; reflexivity].
    right. exists id, u. rewrite getRating_docs. repeat split; auto.
Qed.

(** X9: an authenticated [GET /] answers 200 with the JSON array of the
    encoded averages (the empty array when there are none) and the
    [application/json] content type when [GetAvgRatings] succeeds, and
    the 500 [http.Error] response otherwise; it only issues the
    aggregation. *)
Theorem get_ratings_response
    (ver : string -> string -> verifier_reply) (uri : string) (a0 a : App) (s0 s1 : db)
    (hdrs : list (string * string)) (b : body) (ctx : list (ctx_key * ctx_value))
    (vs : list (string * string)) (u : User) (s : db) :
  Initialize uri a0 s0 = (Some (Ok a), s1) ->
  AuthenticateUser ver uri (header_get "Authorization" hdrs) = Some u ->
  serve ver a (mkRequest "GET" "/" hdrs b ctx vs) s =
    (Some (match fst (GetAvgRatings s) with
           | Some (Ok rs) =>
               mkResponse 200 [("Content-Type", "application/json")]
                          [CJson (JArr (map encode_rating rs))]
           | _ =>
               mkResponse 500
                 [("Content-Type", "text/plain; charset=utf-8"); ("X-Content-Type-Options", "nosniff")]
                 [CText ("Error" ++ newline)]
           end),
     mkDb (docs s) (db_up s) (OpAggregate :: ops s)).
Proof.
  intros HI Hau.
  rewrite (serve_routed ver uri a0 a s0 s1 (mkRequest "GET" "/" hdrs b ctx vs) HgetRatings [] s HI
             eq_refl (route_root uri hdrs b ctx vs)).
  cbn [req_header]. rewrite Hau. pose proof (Initialize_ok _ _ _ _ _ HI) as ->.
  cbn [run_handler]. rewrite getRatings_eq, GetAvgRatings_eq. simpl fst.
  destruct (if db_up s then _ else _); reflexivity.
Qed.

(** X10: an authenticated [GET /{id}] on a reachable store answers 200,
    [application/json], with the encoding of the user's stored document
    for the game, or of the rating 0 for the game when there is none (the
    user id is never encoded); on an unreachable store it answers the 500
    [http.Error] response.  It only issues the lookup.  This holds for
    every id that the router serves without redirecting (not ["."] or
    [".."]). *)
Theorem get_rating_response
    (ver : string -> string -> verifier_reply) (uri : string) (a0 a : App) (s0 s1 : db)
    (id : string) (hdrs : list (string * string)) (b : body) (ctx : list (ctx_key * ctx_value))
    (vs : list (string * string)) (u : User) (s : db) :
  Initialize uri a0 s0 = (Some (Ok a), s1) ->
  segment_ok id = true -> id <> "." -> id <> ".." ->
  AuthenticateUser ver uri (header_get "Authorization" hdrs) = Some u ->
  serve ver a (mkRequest "GET" (String "/"%char id) hdrs b ctx vs) s =
    (Some (if db_up s
           then mkResponse 200 [("Content-Type", "application/json")]
                  [CJson (JObj [("game_id", JStr id);
                                ("rating", JInt (match find (matches id (ID u)) (docs s) with
                                                 | Some d => rating d
                                                 | None => 0
                                                 end))])]
           else mkResponse 500
                  [("Content-Type", "text/plain; charset=utf-8"); ("X-Content-Type-Options", "nosniff")]
                  [CText ("Error" ++ newline)]),
     mkDb (docs s) (db_up s) (OpFindOne id (ID u) :: ops s)).
Proof.
  intros HI Hid Hd Hdd Hau.
  rewrite (serve_routed ver uri a0 a s0 s1 _ HgetRating [("id", id)] s HI
             (clean_request _ id hdrs _ ctx vs Hid Hd Hdd))
    by (rewrite route_id by exact Hid; reflexivity).
  cbn [req_header]. rewrite Hau. pose proof (Initialize_ok _ _ _ _ _ HI) as ->.
  cbn [run_handler]. rewrite (getRating_with_user _ _ _ s u) by reflexivity.
  change (var_lookup "id" (req_vars (with_value (with_vars (mkRequest "GET" (String "/"%char id) hdrs b ctx vs)
            [("id", id)]) (KString "user") (VUser u)))) with id.
  destruct (db_up s); [|reflexivity].
  destruct (find (matches id (ID u)) (docs s)) as [d|] eqn:Hf; [|reflexivity].
  destruct (find_matches _ _ _ _ Hf) as (_ & Hg & _). rewrite <- Hg at 2. reflexivity.
Qed.

(** X11: when the store cannot be reached, an authenticated [PUT /{id}]
    answers 400 (the same status as a validation failure, not 500) with
    the [http.Error] text ["Error"], and no document is written; for
    every id that the router serves without redirecting (not ["."] or
    [".."]). *)
Theorem put_store_down_400
    (ver : string -> string -> verifier_reply) (uri : string) (a0 a : App) (s0 s1 : db)
    (id : string) (hdrs : list (string * string)) (b : body) (ctx : list (ctx_key * ctx_value))
    (vs : list (string * string)) (u : User) (s : db) :
  Initialize uri a0 s0 = (Some (Ok a), s1) ->
  segment_ok id = true -> id <> "." -> id <> ".." ->
  AuthenticateUser ver uri (header_get "Authorization" hdrs) = Some u ->
  db_up s = false ->
  exists s',
    serve ver a (mkRequest "PUT" (String "/"%char id) hdrs b ctx vs) s =
      (Some (mkResponse 400
               [("Content-Type", "text/plain; charset=utf-8"); ("X-Content-Type-Options", "nosniff")]
               [CText ("Error" ++ newline)]), s') /\
    docs s' = docs s.
Proof.
  intros HI Hid Hd Hdd Hau Hdown.
  rewrite (serve_routed ver uri a0 a s0 s1 _ HputRating [("id", id)] s HI
             (clean_request _ id hdrs _ ctx vs Hid Hd Hdd))
    by (rewrite route_id by exact Hid; reflexivity).
  cbn [req_header]. rewrite Hau. pose proof (Initialize_ok _ _ _ _ _ HI) as ->.
  cbn [run_handler]. rewrite (putRating_with_user _ _ _ s u) by reflexivity. cbv zeta.
  rewrite Hdown. destruct (valid _); eexists; split; reflexivity.
Qed.

(** X12: [PutRating] of a rating never changes what [GetRating] returns
    for any other (game, user) pair. *)
Theorem PutRating_other_keys (r : Rating) (s : db) (g u : string) :
  ~ (g = GameID r /\ u = UserID r) ->
  fst (GetRating g u (snd (PutRating r s))) = fst (GetRating g u s).
Proof.
  intros Hne. apply matches_false_iff in Hne.
  rewrite PutRating_eq. destruct (valid r); [|reflexivity].
  rewrite !GetRating_eq. simpl.
  destruct (db_up s); [|reflexivity].
  rewrite (find_upsert_other _ _ g u r (docs s) (matches_self r) Hne). reflexivity.
Qed.

(** X13: [PutRating] keeps the store's invariants: if every stored rating
    is valid and there is at most one document per (game, user) pair,
    the same holds afterwards, whatever the outcome. *)
Theorem PutRating_invariants (r : Rating) (s : db) :
  docs_valid (docs s) -> unique_keys (docs s) ->
  docs_valid (docs (snd (PutRating r s))) /\ unique_keys (docs (snd (PutRating r s))).
Proof.
  intros Hv Hu. rewrite PutRating_eq.
  destruct (valid r) eqn:Hr; [|split; assumption].
  destruct (db_up s); simpl; [|split; assumption].
  split.
  - unfold docs_valid. apply Forall_forall. intros x Hx.
    destruct (in_upsert _ _ r x _ Hx) as [->|Hin]; [exact Hr|].
    exact (proj1 (Forall_forall _ _) Hv x Hin).
  - apply upsert_unique; [apply matches_self|exact Hu].
Qed.

(** X14: a successful [GetRating g u] returns a rating for the game [g],
    either the user's stored document or the zero rating (empty user id,
    rating 0); when every stored rating is valid, its rating is 0 or
    between 1 and 5. *)
Theorem GetRating_shape (g u : string) (s : db) (r : Rating) :
  fst (GetRating g u s) = Some (Ok r) ->
  GameID r = g /\
  ((UserID r = u /\ In r (docs s)) \/ (UserID r = "" /\ rating r = 0)) /\
  (docs_valid (docs s) -> rating r = 0 \/ 1 <= rating r <= 5).
Proof.
  rewrite GetRating_eq. simpl. destruct (db_up s); [|discriminate].
  destruct (find (matches g u) (docs s)) as [d|] eqn:Hf; intros H; injection H as <-.
  - destruct (find_matches _ _ _ _ Hf) as (Hin & Hg & Hu).
    split; [exact Hg|]. split; [left; auto|].
    intros Hv. right. apply (proj1 (Forall_forall _ _) Hv) in Hin.
    unfold valid in Hin. apply andb_prop in Hin as [H1 H2].
    apply Z.leb_le in H1, H2. lia.
  - split; [reflexivity|]. split; [right; auto|]. left. reflexivity.
Qed.

(** X16: a verifier answer 200 whose body is JSON [null], or an object
    with none of the keys [id], [email], [nickname], [profile_photo]
    (compared as Go's decoder does, after case folding), authenticates the request as the zero [User], whose
    [ID] is empty. *)
Theorem authenticate_empty_user
    (ver : string -> string -> verifier_reply) (uri tok : string) (b : body) :
  ver uri tok = VResponse 200 b ->
  (b = BodyJson JNull \/
   exists fs, b = BodyJson (JObj fs) /\
     Forall (fun kv => forall t, In t ["id"; "email"; "nickname"; "profile_photo"] ->
                                 key_is (fst kv) t = false) fs) ->
  AuthenticateUser ver uri tok = Some zero_user /\ ID zero_user = "".
Proof.
  intros Hv Hb. split; [|reflexivity].
  unfold AuthenticateUser. rewrite Hv. simpl.
  destruct Hb as [->|(fs & -> & Hfs)]; [reflexivity|].
  simpl. enough (Hfold : forall err, fold_left decode_user_field fs (zero_user, err) = (zero_user, err))
    by (rewrite Hfold; reflexivity).
  clear Hv. induction Hfs as [|[k v] fs Hk Hfs IH]; intros err; simpl; [reflexivity|].
  simpl in Hk.
  rewrite (Hk "id"), (Hk "email"), (Hk "nickname"), (Hk "profile_photo") by (simpl; tauto).
  apply IH.
Qed.

Lemma replace_first_split (g u : string) (r : Rating) (l : list Rating) :
  match replace_first g u r l with
  | Some l' =>
      exists l1 d l2, l = (l1 ++ d :: l2)%list /\ matches g u d = true /\
                      existsb (matches g u) l1 = false /\ l' = (l1 ++ r :: l2)%list
  | None => existsb (matches g u) l = false
  end.
Proof.
  induction l as [|d l IH]; simpl; [reflexivity|].
  destruct (matches g u d) eqn:Hd.
  - exists [], d, l. auto.
  - destruct (replace_first g u r l) as [l'|]; simpl; [|exact IH].
    destruct IH as (l1 & d' & l2 & -> & Hm & Hn & ->).
    exists (d :: l1), d', l2. simpl. rewrite Hd. auto.
Qed.

(** X17: on a reachable store, the [PutRating] of a valid rating replaces
    in place the first document of the pair when there is one (the
    documents before it do not match, those after it are kept), and
    otherwise appends the rating at the end; so it adds one document when
    the pair had none and otherwise keeps the number of documents. *)
Theorem PutRating_length (r : Rating) (s : db) :
  db_up s = true -> valid r = true ->
  length (docs (snd (PutRating r s))) =
    (length (docs s) + if existsb (matches (GameID r) (UserID r)) (docs s) then 0 else 1)%nat /\
  (existsb (matches (GameID r) (UserID r)) (docs s) = true ->
     exists l1 d l2,
       docs s = (l1 ++ d :: l2)%list /\ matches (GameID r) (UserID r) d = true /\
       existsb (matches (GameID r) (UserID r)) l1 = false /\
       docs (snd (PutRating r s)) = (l1 ++ r :: l2)%list) /\
  (existsb (matches (GameID r) (UserID r)) (docs s) = false ->
     docs (snd (PutRating r s)) = (docs s ++ [r])%list).
Proof.
  intros Hup Hv. rewrite PutRating_eq, Hv, Hup. cbn [snd docs].
  split; [apply upsert_length|].
  pose proof (replace_first_split (GameID r) (UserID r) r (docs s)) as Hs.
  unfold upsert. destruct (replace_first (GameID r) (UserID r) r (docs s)) as [l'|].
  - destruct Hs as (l1 & d & l2 & Hl & Hm & Hn & ->). split.
    + intros _. exists l1, d, l2. auto.
    + intros Hf. exfalso. rewrite Hl, existsb_app in Hf. cbn [existsb] in Hf.
      rewrite Hm, orb_true_r in Hf. discriminate.
  - split; [intros Ht; congruence|reflexivity].
Qed.

(* ------------------------------------------------------------------ *)
(** ** Witnesses for the further properties *)

Lemma GetAvgRatings_ok_sorted_means_witness :
  let rs := [mkRating "" "g1" 4; mkRating "" "g2" 2] in
  docs_valid (docs store_two_games) /\ Z.of_nat (length (docs store_two_games)) < 2 ^ 50 /\
  GetAvgRatings store_two_games = (Some (Ok rs), mkDb (docs store_two_games) true [OpAggregate]) /\
  (Sorted (fun a b => rating b <= rating a) rs /\
   NoDup (map GameID rs) /\
   (forall g, In g (map GameID rs) <-> In g (map GameID (docs store_two_games))) /\
   (forall r, In r rs ->
      UserID r = "" /\
      rating r * Z.of_nat (game_count (GameID r) (docs store_two_games)) =
        game_sum (GameID r) (docs store_two_games))).
Proof.
  intros rs.
  assert (Hv : docs_valid (docs store_two_games)) by (unfold docs_valid; repeat constructor).
  split; [exact Hv|]. split; [vm_compute; reflexivity|]. split; [vm_compute; reflexivity|].
  apply (GetAvgRatings_ok_sorted_means store_two_games
           (mkDb (docs store_two_games) true [OpAggregate]) rs).
  - exact Hv.
  - vm_compute. reflexivity.
  - vm_compute. reflexivity.
Defined.

Lemma GetAvgRatings_truncates_witness :
  db_up store_half_mean = true /\ docs_valid (docs store_half_mean) /\
  Z.of_nat (length (docs store_half_mean)) < 2 ^ 50 /\
  (fst (GetAvgRatings store_half_mean) = Some (Err ErrTruncate) <->
   exists g, In g (map GameID (docs store_half_mean)) /\
             game_sum g (docs store_half_mean) mod Z.of_nat (game_count g (docs store_half_mean)) <> 0).
Proof.
  assert (Hv : docs_valid (docs store_half_mean)) by (unfold docs_valid; repeat constructor).
  split; [reflexivity|]. split; [exact Hv|]. split; [vm_compute; reflexivity|].
  apply (GetAvgRatings_truncates store_half_mean).
  - reflexivity.
  - exact Hv.
  - vm_compute. reflexivity.
Defined.

Lemma GetAvgRatings_empty_witness :
  db_up sample_db = true /\
  (fst (GetAvgRatings sample_db) = Some (Ok []) <-> docs sample_db = []).
Proof.
  split; [reflexivity|]. apply (GetAvgRatings_empty sample_db). reflexivity.
Defined.


Lemma serve_writes_only_put_witness :
  let r := sample_request "PUT" "/g1" "good" (BodyJson (JObj [("rating", JInt 3)])) in
  Initialize sample_uri sample_app0 sample_db = (Some (Ok sample_app), mkDb [] true [OpPing]) /\
  (docs (snd (serve sample_verifier sample_app r sample_db)) = docs sample_db \/
   exists id u,
     method r = "PUT" /\ path r = String "/"%char id /\ segment_ok id = true /\
     AuthenticateUser sample_verifier sample_uri (header_get "Authorization" (req_header r)) = Some u /\
     valid (put_input (req_body r) id (ID u)) = true /\ db_up sample_db = true /\
     docs (snd (serve sample_verifier sample_app r sample_db)) =
       upsert id (ID u) (put_input (req_body r) id (ID u)) (docs sample_db)).
Proof.
  intros r. split; [reflexivity|].
  apply (serve_writes_only_put sample_verifier sample_uri sample_app0 sample_app sample_db
           (mkDb [] true [OpPing]) r sample_db).
  reflexivity.
Defined.

Lemma get_ratings_response_witness :
  Initialize sample_uri sample_app0 sample_db = (Some (Ok sample_app), mkDb [] true [OpPing]) /\
  AuthenticateUser sample_verifier sample_uri (header_get "Authorization" sample_hdrs) = Some sample_user /\
  serve sample_verifier sample_app (mkRequest "GET" "/" sample_hdrs BodyMalformed [] []) store_two_games =
    (Some (match fst (GetAvgRatings store_two_games) with
           | Some (Ok rs) =>
               mkResponse 200 [("Content-Type", "application/json")]
                          [CJson (JArr (map encode_rating rs))]
           | _ =>
               mkResponse 500
                 [("Content-Type", "text/plain; charset=utf-8"); ("X-Content-Type-Options", "nosniff")]
                 [CText ("Error" ++ newline)]
           end),
     mkDb (docs store_two_games) (db_up store_two_games) (OpAggregate :: ops store_two_games)).
Proof.
  split; [reflexivity|]. split; [reflexivity|].
  apply (get_ratings_response sample_verifier sample_uri sample_app0 sample_app sample_db
           (mkDb [] true [OpPing]) sample_hdrs BodyMalformed [] [] sample_user store_two_games);
    reflexivity.
Defined.

Lemma get_rating_response_witness :
  Initialize sample_uri sample_app0 sample_db = (Some (Ok sample_app), mkDb [] true [OpPing]) /\
  segment_ok "g1" = true /\ "g1" <> "." /\ "g1" <> ".." /\
  AuthenticateUser sample_verifier sample_uri (header_get "Authorization" sample_hdrs) = Some sample_user /\
  serve sample_verifier sample_app
    (mkRequest "GET" (String "/"%char "g1") sample_hdrs BodyMalformed [] []) store_two_games =
    (Some (if db_up store_two_games
           then mkResponse 200 [("Content-Type", "application/json")]
                  [CJson (JObj [("game_id", JStr "g1");
                                ("rating", JInt (match find (matches "g1" (ID sample_user))
                                                             (docs store_two_games) with
                                                 | Some d => rating d
                                                 | None => 0
                                                 end))])]
           else mkResponse 500
                  [("Content-Type", "text/plain; charset=utf-8"); ("X-Content-Type-Options", "nosniff")]
                  [CText ("Error" ++ newline)]),
     mkDb (docs store_two_games) (db_up store_two_games)
          (OpFindOne "g1" (ID sample_user) :: ops store_two_games)).
Proof.
  split; [reflexivity|]. split; [reflexivity|]. split; [discriminate|]. split; [discriminate|].
  split; [reflexivity|].
  apply (get_rating_response sample_verifier sample_uri sample_app0 sample_app sample_db
           (mkDb [] true [OpPing]) "g1" sample_hdrs BodyMalformed [] [] sample_user store_two_games);
    first [reflexivity | discriminate].
Defined.

Lemma put_store_down_400_witness :
  Initialize sample_uri sample_app0 sample_db = (Some (Ok sample_app), mkDb [] true [OpPing]) /\
  segment_ok "g1" = true /\ "g1" <> "." /\ "g1" <> ".." /\
  AuthenticateUser sample_verifier sample_uri (header_get "Authorization" sample_hdrs) = Some sample_user /\
  db_up store_down = false /\
  exists s',
    serve sample_verifier sample_app
      (mkRequest "PUT" (String "/"%char "g1") sample_hdrs (BodyJson (JObj [("rating", JInt 5)])) [] [])
      store_down =
      (Some (mkResponse 400
               [("Content-Type", "text/plain; charset=utf-8"); ("X-Content-Type-Options", "nosniff")]
               [CText ("Error" ++ newline)]), s') /\
    docs s' = docs store_down.
Proof.
  split; [reflexivity|]. split; [reflexivity|]. split; [discriminate|]. split; [discriminate|].
  split; [reflexivity|]. split; [reflexivity|].
  apply (put_store_down_400 sample_verifier sample_uri sample_app0 sample_app sample_db
           (mkDb [] true [OpPing]) "g1" sample_hdrs (BodyJson (JObj [("rating", JInt 5)])) [] []
           sample_user store_down);
    first [reflexivity | discriminate].
Defined.

Lemma PutRating_other_keys_witness :
  ~ ("g2" = GameID (mkRating "u1" "g1" 3) /\ "u1" = UserID (mkRating "u1" "g1" 3)) /\
  fst (GetRating "g2" "u1" (snd (PutRating (mkRating "u1" "g1" 3) store_two_games))) =
    fst (GetRating "g2" "u1" store_two_games).
Proof.
  assert (Hne : ~ ("g2" = GameID (mkRating "u1" "g1" 3) /\ "u1" = UserID (mkRating "u1" "g1" 3)))
    by (simpl; intros [H _]; discriminate).
  split; [exact Hne|]. apply (PutRating_other_keys (mkRating "u1" "g1" 3) store_two_games "g2" "u1").
  exact Hne.
Defined.

Lemma PutRating_invariants_witness :
  let s := mkDb [mkRating "u1" "g1" 4] true [] in
  docs_valid (docs s) /\ unique_keys (docs s) /\
  (docs_valid (docs (snd (PutRating (mkRating "u2" "g1" 2) s))) /\
   unique_keys (docs (snd (PutRating (mkRating "u2" "g1" 2) s)))).
Proof.
  intros s.
  assert (Hv : docs_valid (docs s)) by (unfold docs_valid; repeat constructor).
  assert (Hu : unique_keys (docs s))
    by (intros g u; unfold count_key; simpl; destruct (matches g u _); simpl; lia).
  split; [exact Hv|]. split; [exact Hu|].
  apply (PutRating_invariants (mkRating "u2" "g1" 2) s); [exact Hv|exact Hu].
Defined.

Lemma GetRating_shape_witness :
  fst (GetRating "g1" "u1" store_two_games) = Some (Ok (mkRating "u1" "g1" 5)) /\
  (GameID (mkRating "u1" "g1" 5) = "g1" /\
   ((UserID (mkRating "u1" "g1" 5) = "u1" /\ In (mkRating "u1" "g1" 5) (docs store_two_games)) \/
    (UserID (mkRating "u1" "g1" 5) = "" /\ rating (mkRating "u1" "g1" 5) = 0)) /\
   (docs_valid (docs store_two_games) ->
      rating (mkRating "u1" "g1" 5) = 0 \/ 1 <= rating (mkRating "u1" "g1" 5) <= 5)).
Proof.
  split; [reflexivity|].
  apply (GetRating_shape "g1" "u1" store_two_games (mkRating "u1" "g1" 5)). reflexivity.
Defined.

Lemma authenticate_empty_user_witness :
  let ver := fun (_ _ : string) => VResponse 200 (BodyJson (JObj [("Name", JStr "x")])) in
  ver sample_uri "t" = VResponse 200 (BodyJson (JObj [("Name", JStr "x")])) /\
  (BodyJson (JObj [("Name", JStr "x")]) = BodyJson JNull \/
   exists fs, BodyJson (JObj [("Name", JStr "x")]) = BodyJson (JObj fs) /\
     Forall (fun kv => forall t, In t ["id"; "email"; "nickname"; "profile_photo"] ->
                                 key_is (fst kv) t = false) fs) /\
  (AuthenticateUser ver sample_uri "t" = Some zero_user /\ ID zero_user = "").
Proof.
  intros ver.
  assert (Hb : BodyJson (JObj [("Name", JStr "x")]) = BodyJson JNull \/
               exists fs, BodyJson (JObj [("Name", JStr "x")]) = BodyJson (JObj fs) /\
                 Forall (fun kv => forall t, In t ["id"; "email"; "nickname"; "profile_photo"] ->
                                             key_is (fst kv) t = false) fs).
  { right. eexists. split; [reflexivity|].
    repeat constructor. intros t Ht. simpl in Ht.
    destruct Ht as [<-|[<-|[<-|[<-|[]]]]]; reflexivity. }
  split; [reflexivity|]. split; [exact Hb|].
  apply (authenticate_empty_user ver sample_uri "t" (BodyJson (JObj [("Name", JStr "x")]))).
  - reflexivity.
  - exact Hb.
Defined.

Lemma PutRating_length_witness :
  db_up store_two_games = true /\ valid (mkRating "u2" "g1" 4) = true /\
  (length (docs (snd (PutRating (mkRating "u2" "g1" 4) store_two_games))) =
     (length (docs store_two_games) +
      if existsb (matches "g1" "u2") (docs store_two_games) then 0 else 1)%nat /\
   (existsb (matches "g1" "u2") (docs store_two_games) = true ->
      exists l1 d l2,
        docs store_two_games = (l1 ++ d :: l2)%list /\ matches "g1" "u2" d = true /\
        existsb (matches "g1" "u2") l1 = false /\
        docs (snd (PutRating (mkRating "u2" "g1" 4) store_two_games)) =
          (l1 ++ mkRating "u2" "g1" 4 :: l2)%list) /\
   (existsb (matches "g1" "u2") (docs store_two_games) = false ->
      docs (snd (PutRating (mkRating "u2" "g1" 4) store_two_games)) =
        (docs store_two_games ++ [mkRating "u2" "g1" 4])%list)).
Proof.
  split; [reflexivity|]. split; [reflexivity|].
  apply (PutRating_length (mkRating "u2" "g1" 4) store_two_games); reflexivity.
Defined.
